(** * Workspace.js: a shallow embedding of the workspace controller

    The development follows [src/js/Workspace.js].  JavaScript numbers
    are modelled on the extended rational line: the finite doubles are
    idealised as canonical rationals ([Qc], no rounding, the two zeros
    identified) and the three special values [NaN], [-Infinity] and
    [+Infinity] are kept, with the IEEE rules for them.  JavaScript
    objects used as dictionaries are modelled by their own properties
    ([gmap string _]). *)

From Stdlib Require Import QArith Qcanon Qround ZArith Sorting.Sorted.
From stdpp Require Import gmap strings list fin_maps sorting.

Open Scope string_scope.

(** ** Numbers *)

Inductive num : Type :=
| NaN
| NInf
| Fin (q : Qc)
| PInf.

Definition ofZ (z : Z) : num := Fin (Q2Qc (inject_Z z)).

Definition oneHalf : num := Fin (Q2Qc (1 # 2)).

Definition Qcltb (a b : Qc) : bool := negb (Qle_bool b a).

Definition Qceqb (a b : Qc) : bool := Qeq_bool a b.

(** [a < b] on numbers; every comparison with [NaN] is false. *)
Definition num_ltb (a b : num) : bool :=
  match a, b with
  | NaN, _ => false
  | _, NaN => false
  | NInf, NInf => false
  | NInf, _ => true
  | Fin _, NInf => false
  | Fin x, Fin y => Qcltb x y
  | Fin _, PInf => true
  | PInf, _ => false
  end.

(** [a >= b]: the language computes [a < b] and answers [false] when
    that comparison is undefined, its negation otherwise. *)
Definition num_geb (a b : num) : bool :=
  match a, b with
  | NaN, _ => false
  | _, NaN => false
  | _, _ => negb (num_ltb a b)
  end.

(** [a == b] on numbers. *)
Definition num_eqb (a b : num) : bool :=
  match a, b with
  | NInf, NInf => true
  | PInf, PInf => true
  | Fin x, Fin y => Qceqb x y
  | _, _ => false
  end.

Definition num_neg (a : num) : num :=
  match a with
  | NaN => NaN
  | NInf => PInf
  | Fin x => Fin (- x)%Qc
  | PInf => NInf
  end.

Definition num_sub (a b : num) : num :=
  match a, b with
  | NaN, _ => NaN
  | _, NaN => NaN
  | PInf, PInf => NaN
  | NInf, NInf => NaN
  | PInf, _ => PInf
  | NInf, _ => NInf
  | Fin _, PInf => NInf
  | Fin _, NInf => PInf
  | Fin x, Fin y => Fin (x - y)%Qc
  end.

(** Sign of a finite value: [Lt], [Eq] or [Gt] against zero. *)
Definition Qcsign (x : Qc) : comparison := (0 ?= Qnum x)%Z.

Definition signed_inf (s : comparison) (pos : num) : num :=
  match s with
  | Eq => NaN
  | Lt => pos
  | Gt => num_neg pos
  end.

Definition num_mul (a b : num) : num :=
  match a, b with
  | NaN, _ => NaN
  | _, NaN => NaN
  | Fin x, Fin y => Fin (x * y)%Qc
  | Fin x, PInf => signed_inf (Qcsign x) PInf
  | Fin x, NInf => signed_inf (Qcsign x) NInf
  | PInf, Fin y => signed_inf (Qcsign y) PInf
  | NInf, Fin y => signed_inf (Qcsign y) NInf
  | PInf, PInf => PInf
  | NInf, NInf => PInf
  | PInf, NInf => NInf
  | NInf, PInf => NInf
  end.

(** Division.  A finite value over zero is an infinity of the sign of
    the numerator (zero is taken as [+0]) and [0 / 0] is [NaN]. *)
Definition num_div (a b : num) : num :=
  match a, b with
  | NaN, _ => NaN
  | _, NaN => NaN
  | Fin x, Fin y =>
      if Qceqb y 0 then signed_inf (Qcsign x) PInf else Fin (x / y)%Qc
  | Fin _, _ => Fin 0
  | PInf, Fin y => match Qcsign y with Gt => NInf | _ => PInf end
  | NInf, Fin y => match Qcsign y with Gt => PInf | _ => NInf end
  | _, _ => NaN
  end.

(** [Math.ceil]. *)
Definition num_ceil (a : num) : num :=
  match a with
  | Fin x => ofZ (Qceiling x)
  | other => other
  end.

(** ** Values

    The values that reach the numeric code: [undefined], [null] and
    numbers. *)

Inductive val : Type :=
| Undef
| Null
| Num (x : num).

Definition ToNumber (v : val) : num :=
  match v with
  | Undef => NaN
  | Null => Fin 0
  | Num x => x
  end.

Definition js_lt (a b : val) : bool := num_ltb (ToNumber a) (ToNumber b).
Definition js_gt (a b : val) : bool := num_ltb (ToNumber b) (ToNumber a).
Definition js_ge (a b : val) : bool := num_geb (ToNumber a) (ToNumber b).

(** Loose equality [==]: [undefined] and [null] equal each other and
    nothing else; numbers compare numerically. *)
Definition js_eq (a b : val) : bool :=
  match a, b with
  | Num x, Num y => num_eqb x y
  | Num _, _ => false
  | _, Num _ => false
  | _, _ => true
  end.

Definition js_neq (a b : val) : bool := negb (js_eq a b).

Definition js_sub (a b : val) : val := Num (num_sub (ToNumber a) (ToNumber b)).
Definition js_div (a b : val) : val := Num (num_div (ToNumber a) (ToNumber b)).

(** An object reference that may also be [null] or [undefined]. *)
Inductive ref (A : Type) : Type :=
| JNull
| JUndef
| JObj (a : A).
Arguments JNull {A}.
Arguments JUndef {A}.
Arguments JObj {A} a.

Definition truthy {A} (r : ref A) : bool :=
  match r with
  | JObj _ => true
  | _ => false
  end.

(** [r === null]. *)
Definition is_null {A} (r : ref A) : bool :=
  match r with
  | JNull => true
  | _ => false
  end.

(** [a[k]] on an array of numbers, with a number as the key: an
    element for an integer key inside the array, [undefined] for any
    other key. *)
Definition array_get (a : list num) (k : num) : val :=
  match k with
  | Fin q =>
      if ((Qden q =? 1)%positive && (0 <=? Qnum q)%Z)%bool
      then match a !! Z.to_nat (Qnum q) with
           | Some x => Num x
           | None => Undef
           end
      else Undef
  | _ => Undef
  end.

(** [a[index]] for an integer index. *)
Definition nth_ref {A} (a : list A) (index : Z) : ref A :=
  if (index <? 0)%Z then JUndef
  else match a !! Z.to_nat index with
       | Some x => JObj x
       | None => JUndef
       end.

(** ** Data model *)

(** A spot: the fields the workspace reads or writes. *)
Module Spot.
Record t : Type := mk {
  name : string;
  scale : val;
  color : string;
  visibility : val;
  intensity : val
}.

Definition set_visibility (v : val) (s : t) : t :=
  mk (name s) (scale s) (color s) v (intensity s).

Definition set_intensity (v : val) (s : t) : t :=
  mk (name s) (scale s) (color s) (visibility s) v.
End Spot.

(** A measure: a name and one raw number per spot. *)
Module Measure.
Record t : Type := mk {
  name : string;
  values : list num
}.
End Measure.

(** An entry of [Workspace.Scale]. *)
Module Scale.
Record t : Type := mk {
  id : string;
  function : val -> val;
  filter : val -> bool;
  legend : string
}.
End Scale.

Inductive Mode : Type :=
| UNDEFINED
| MODE_2D
| MODE_3D.

Definition Mode_eqb (a b : Mode) : bool :=
  match a, b with
  | UNDEFINED, UNDEFINED => true
  | MODE_2D, MODE_2D => true
  | MODE_3D, MODE_3D => true
  | _, _ => false
  end.

(** [Workspace.Events]. *)
Inductive Event : Type :=
| STATUS_CHANGE
| MODE_CHANGE
| MAPPING_CHANGE
| INTENSITIES_CHANGE
| ERRORS_CHANGE
| AUTO_MAPPING_CHANGE
| SETTINGS_CHANGE
| NO_TASKS.

Definition Blob : Type := string.
Definition Settings : Type := string.
Definition Image : Type := string.
Definition Geometry : Type := string.

(** A colour map is an object of the colormaps module; only its
    identity matters to the workspace. *)
Inductive ColorMap : Type :=
| ColorMapObject (handle : nat).

(** What is posted to a worker: the first element of the blob list of
    a load request (which is [undefined] for an empty list), or the
    argument object [_mapMesh] builds. *)
Inductive Payload : Type :=
| FirstBlob (blob : ref Blob)
| MapArgs (vertices : Geometry) (spots : list Spot.t) (scale : val).

Inductive WorkerKind : Type :=
| Script (file : string)
| Constructor (class : string).

(** An entry of [Workspace.TaskType]. *)
Module TaskType.
Record t : Type := mk {
  key : string;
  worker : WorkerKind
}.
End TaskType.

Definition DOWNLOAD := TaskType.mk "download" (Script "Downloader.js").
Definition LOAD_IMAGE := TaskType.mk "load-image" (Constructor "ImageLoader").
Definition LOAD_MESH := TaskType.mk "load-mesh" (Script "MeshLoader.js").
Definition LOAD_MATERIAL := TaskType.mk "load-material" (Constructor "MaterialLoader").
Definition LOAD_MEASURES := TaskType.mk "load-measures" (Script "MeasuresLoader.js").
Definition LOAD_SETTINGS := TaskType.mk "load-settings" (Script "SettingsLoader.js").
Definition MAP := TaskType.mk "map" (Script "Mapper.js").

(** A running task.  [worker] is the handle of the worker object the
    task owns; [args] is the payload captured by its message handler
    (posted when the worker reports [ready]). *)
Module Task.
Record t : Type := mk {
  worker : nat;
  status : string;
  args : Payload
}.
End Task.

(** Modelled from the spec: Scene2D is not among the sources.  Section 6
    gives its interface: the properties [spots] and [colorMap] are
    replaced by assignment, [resetImage()] drops the image,
    [refreshSpots()] redraws, [updateIntensities(spots)] receives the
    full spot sequence.  The scene keeps its own copy of the spots it
    is given. *)
Module Scene2D.
Record t : Type := mk {
  spots : option (list Spot.t);
  colorMap : option ColorMap;
  image : option Image;
  refreshes : nat;
  pushed : option (list Spot.t)
}.

Definition set_spots (v : option (list Spot.t)) (s : t) : t :=
  mk v (colorMap s) (image s) (refreshes s) (pushed s).
Definition set_colorMap (v : option ColorMap) (s : t) : t :=
  mk (spots s) v (image s) (refreshes s) (pushed s).
Definition resetImage (s : t) : t :=
  mk (spots s) (colorMap s) None (refreshes s) (pushed s).
Definition refreshSpots (s : t) : t :=
  mk (spots s) (colorMap s) (image s) (S (refreshes s)) (pushed s).
Definition updateIntensities (l : list Spot.t) (s : t) : t :=
  mk (spots s) (colorMap s) (image s) (refreshes s) (Some l).
End Scene2D.

(** Modelled from the spec: Scene3D is not among the sources.  Same
    interface as the 2D scene, with a [geometry] property in place of
    the image and a [globalSpotScale] property. *)
Module Scene3D.
Record t : Type := mk {
  spots : option (list Spot.t);
  colorMap : option ColorMap;
  geometry : option Geometry;
  globalSpotScale : val;
  refreshes : nat;
  pushed : option (list Spot.t)
}.

Definition set_spots (v : option (list Spot.t)) (s : t) : t :=
  mk v (colorMap s) (geometry s) (globalSpotScale s) (refreshes s) (pushed s).
Definition set_colorMap (v : option ColorMap) (s : t) : t :=
  mk (spots s) v (geometry s) (globalSpotScale s) (refreshes s) (pushed s).
Definition set_geometry (v : option Geometry) (s : t) : t :=
  mk (spots s) (colorMap s) v (globalSpotScale s) (refreshes s) (pushed s).
Definition refreshSpots (s : t) : t :=
  mk (spots s) (colorMap s) (geometry s) (globalSpotScale s)
    (S (refreshes s)) (pushed s).
Definition updateIntensities (l : list Spot.t) (s : t) : t :=
  mk (spots s) (colorMap s) (geometry s) (globalSpotScale s) (refreshes s)
    (Some l).
End Scene3D.

(** Which scene object [_currentScene] points to. *)
Inductive SceneRef : Type :=
| TheScene2D
| TheScene3D.

(** The workspace object.  The fields with a leading underscore are
    those of the constructor.  The last four describe what the
    workspace did to its surroundings: the events published so far
    (oldest first), the number of worker objects created, the handles
    of the workers terminated and the messages posted to workers. *)
Record Workspace : Type := mkWorkspace {
  _mode : Mode;
  _errors : list string;
  _spots : option (list Spot.t);
  _measures : option (list Measure.t);
  _activeMeasure : ref Measure.t;
  _colorMap : option ColorMap;
  _scale : Scale.t;
  _hotspotQuantile : num;
  _autoMinMax : bool;
  _minValue : val;
  _maxValue : val;
  _scene3d : Scene3D.t;
  _scene2d : Scene2D.t;
  _currentScene : option SceneRef;
  _loadedSettings : option Settings;
  _status : string;
  _tasks : gmap string Task.t;
  _settingsToLoad : ref Blob;
  published : list Event;
  workers : nat;
  terminated : list nat;
  posted : list (nat * Payload)
}.

(** Field updates: [with_f v w] is [w] after the assignment [this.f = v]. *)
Definition with_mode (v : Mode) (w : Workspace) : Workspace :=
  mkWorkspace v (_errors w) (_spots w) (_measures w) (_activeMeasure w)
    (_colorMap w) (_scale w) (_hotspotQuantile w) (_autoMinMax w) (_minValue
    w) (_maxValue w) (_scene3d w) (_scene2d w) (_currentScene w)
    (_loadedSettings w) (_status w) (_tasks w) (_settingsToLoad w)
    (published w) (workers w) (terminated w) (posted w).
Definition with_spots (v : option (list Spot.t)) (w : Workspace) : Workspace :=
  mkWorkspace (_mode w) (_errors w) v (_measures w) (_activeMeasure w)
    (_colorMap w) (_scale w) (_hotspotQuantile w) (_autoMinMax w) (_minValue
    w) (_maxValue w) (_scene3d w) (_scene2d w) (_currentScene w)
    (_loadedSettings w) (_status w) (_tasks w) (_settingsToLoad w)
    (published w) (workers w) (terminated w) (posted w).
Definition with_activeMeasure (v : ref Measure.t) (w : Workspace) : Workspace :=
  mkWorkspace (_mode w) (_errors w) (_spots w) (_measures w) v (_colorMap w)
    (_scale w) (_hotspotQuantile w) (_autoMinMax w) (_minValue w) (_maxValue
    w) (_scene3d w) (_scene2d w) (_currentScene w) (_loadedSettings w)
    (_status w) (_tasks w) (_settingsToLoad w) (published w) (workers w)
    (terminated w) (posted w).
Definition with_colorMap (v : option ColorMap) (w : Workspace) : Workspace :=
  mkWorkspace (_mode w) (_errors w) (_spots w) (_measures w) (_activeMeasure
    w) v (_scale w) (_hotspotQuantile w) (_autoMinMax w) (_minValue w)
    (_maxValue w) (_scene3d w) (_scene2d w) (_currentScene w)
    (_loadedSettings w) (_status w) (_tasks w) (_settingsToLoad w)
    (published w) (workers w) (terminated w) (posted w).
Definition with_scale (v : Scale.t) (w : Workspace) : Workspace :=
  mkWorkspace (_mode w) (_errors w) (_spots w) (_measures w) (_activeMeasure
    w) (_colorMap w) v (_hotspotQuantile w) (_autoMinMax w) (_minValue w)
    (_maxValue w) (_scene3d w) (_scene2d w) (_currentScene w)
    (_loadedSettings w) (_status w) (_tasks w) (_settingsToLoad w)
    (published w) (workers w) (terminated w) (posted w).
Definition with_hotspotQuantile (v : num) (w : Workspace) : Workspace :=
  mkWorkspace (_mode w) (_errors w) (_spots w) (_measures w) (_activeMeasure
    w) (_colorMap w) (_scale w) v (_autoMinMax w) (_minValue w) (_maxValue
    w) (_scene3d w) (_scene2d w) (_currentScene w) (_loadedSettings w)
    (_status w) (_tasks w) (_settingsToLoad w) (published w) (workers w)
    (terminated w) (posted w).
Definition with_autoMinMax (v : bool) (w : Workspace) : Workspace :=
  mkWorkspace (_mode w) (_errors w) (_spots w) (_measures w) (_activeMeasure
    w) (_colorMap w) (_scale w) (_hotspotQuantile w) v (_minValue w)
    (_maxValue w) (_scene3d w) (_scene2d w) (_currentScene w)
    (_loadedSettings w) (_status w) (_tasks w) (_settingsToLoad w)
    (published w) (workers w) (terminated w) (posted w).
Definition with_minValue (v : val) (w : Workspace) : Workspace :=
  mkWorkspace (_mode w) (_errors w) (_spots w) (_measures w) (_activeMeasure
    w) (_colorMap w) (_scale w) (_hotspotQuantile w) (_autoMinMax w) v
    (_maxValue w) (_scene3d w) (_scene2d w) (_currentScene w)
    (_loadedSettings w) (_status w) (_tasks w) (_settingsToLoad w)
    (published w) (workers w) (terminated w) (posted w).
Definition with_maxValue (v : val) (w : Workspace) : Workspace :=
  mkWorkspace (_mode w) (_errors w) (_spots w) (_measures w) (_activeMeasure
    w) (_colorMap w) (_scale w) (_hotspotQuantile w) (_autoMinMax w)
    (_minValue w) v (_scene3d w) (_scene2d w) (_currentScene w)
    (_loadedSettings w) (_status w) (_tasks w) (_settingsToLoad w)
    (published w) (workers w) (terminated w) (posted w).
Definition with_scene3d (v : Scene3D.t) (w : Workspace) : Workspace :=
  mkWorkspace (_mode w) (_errors w) (_spots w) (_measures w) (_activeMeasure
    w) (_colorMap w) (_scale w) (_hotspotQuantile w) (_autoMinMax w)
    (_minValue w) (_maxValue w) v (_scene2d w) (_currentScene w)
    (_loadedSettings w) (_status w) (_tasks w) (_settingsToLoad w)
    (published w) (workers w) (terminated w) (posted w).
Definition with_scene2d (v : Scene2D.t) (w : Workspace) : Workspace :=
  mkWorkspace (_mode w) (_errors w) (_spots w) (_measures w) (_activeMeasure
    w) (_colorMap w) (_scale w) (_hotspotQuantile w) (_autoMinMax w)
    (_minValue w) (_maxValue w) (_scene3d w) v (_currentScene w)
    (_loadedSettings w) (_status w) (_tasks w) (_settingsToLoad w)
    (published w) (workers w) (terminated w) (posted w).
Definition with_currentScene (v : option SceneRef) (w : Workspace) : Workspace :=
  mkWorkspace (_mode w) (_errors w) (_spots w) (_measures w) (_activeMeasure
    w) (_colorMap w) (_scale w) (_hotspotQuantile w) (_autoMinMax w)
    (_minValue w) (_maxValue w) (_scene3d w) (_scene2d w) v (_loadedSettings
    w) (_status w) (_tasks w) (_settingsToLoad w) (published w) (workers w)
    (terminated w) (posted w).
Definition with_loadedSettings (v : option Settings) (w : Workspace) : Workspace :=
  mkWorkspace (_mode w) (_errors w) (_spots w) (_measures w) (_activeMeasure
    w) (_colorMap w) (_scale w) (_hotspotQuantile w) (_autoMinMax w)
    (_minValue w) (_maxValue w) (_scene3d w) (_scene2d w) (_currentScene w)
    v (_status w) (_tasks w) (_settingsToLoad w) (published w) (workers w)
    (terminated w) (posted w).
Definition with_status (v : string) (w : Workspace) : Workspace :=
  mkWorkspace (_mode w) (_errors w) (_spots w) (_measures w) (_activeMeasure
    w) (_colorMap w) (_scale w) (_hotspotQuantile w) (_autoMinMax w)
    (_minValue w) (_maxValue w) (_scene3d w) (_scene2d w) (_currentScene w)
    (_loadedSettings w) v (_tasks w) (_settingsToLoad w) (published w)
    (workers w) (terminated w) (posted w).
Definition with_tasks (v : gmap string Task.t) (w : Workspace) : Workspace :=
  mkWorkspace (_mode w) (_errors w) (_spots w) (_measures w) (_activeMeasure
    w) (_colorMap w) (_scale w) (_hotspotQuantile w) (_autoMinMax w)
    (_minValue w) (_maxValue w) (_scene3d w) (_scene2d w) (_currentScene w)
    (_loadedSettings w) (_status w) v (_settingsToLoad w) (published w)
    (workers w) (terminated w) (posted w).
Definition with_settingsToLoad (v : ref Blob) (w : Workspace) : Workspace :=
  mkWorkspace (_mode w) (_errors w) (_spots w) (_measures w) (_activeMeasure
    w) (_colorMap w) (_scale w) (_hotspotQuantile w) (_autoMinMax w)
    (_minValue w) (_maxValue w) (_scene3d w) (_scene2d w) (_currentScene w)
    (_loadedSettings w) (_status w) (_tasks w) v (published w) (workers w)
    (terminated w) (posted w).
Definition with_published (v : list Event) (w : Workspace) : Workspace :=
  mkWorkspace (_mode w) (_errors w) (_spots w) (_measures w) (_activeMeasure
    w) (_colorMap w) (_scale w) (_hotspotQuantile w) (_autoMinMax w)
    (_minValue w) (_maxValue w) (_scene3d w) (_scene2d w) (_currentScene w)
    (_loadedSettings w) (_status w) (_tasks w) (_settingsToLoad w) v
    (workers w) (terminated w) (posted w).
Definition with_workers (v : nat) (w : Workspace) : Workspace :=
  mkWorkspace (_mode w) (_errors w) (_spots w) (_measures w) (_activeMeasure
    w) (_colorMap w) (_scale w) (_hotspotQuantile w) (_autoMinMax w)
    (_minValue w) (_maxValue w) (_scene3d w) (_scene2d w) (_currentScene w)
    (_loadedSettings w) (_status w) (_tasks w) (_settingsToLoad w)
    (published w) v (terminated w) (posted w).
Definition with_terminated (v : list nat) (w : Workspace) : Workspace :=
  mkWorkspace (_mode w) (_errors w) (_spots w) (_measures w) (_activeMeasure
    w) (_colorMap w) (_scale w) (_hotspotQuantile w) (_autoMinMax w)
    (_minValue w) (_maxValue w) (_scene3d w) (_scene2d w) (_currentScene w)
    (_loadedSettings w) (_status w) (_tasks w) (_settingsToLoad w)
    (published w) (workers w) v (posted w).
Definition with_posted (v : list (nat * Payload)) (w : Workspace) : Workspace :=
  mkWorkspace (_mode w) (_errors w) (_spots w) (_measures w) (_activeMeasure
    w) (_colorMap w) (_scale w) (_hotspotQuantile w) (_autoMinMax w)
    (_minValue w) (_maxValue w) (_scene3d w) (_scene2d w) (_currentScene w)
    (_loadedSettings w) (_status w) (_tasks w) (_settingsToLoad w)
    (published w) (workers w) (terminated w) v.

Definition with_measures (v : option (list Measure.t)) (w : Workspace)
  : Workspace :=
  mkWorkspace (_mode w) (_errors w) (_spots w) v (_activeMeasure w)
    (_colorMap w) (_scale w) (_hotspotQuantile w) (_autoMinMax w)
    (_minValue w) (_maxValue w) (_scene3d w) (_scene2d w) (_currentScene w)
    (_loadedSettings w) (_status w) (_tasks w) (_settingsToLoad w)
    (published w) (workers w) (terminated w) (posted w).

(** Results of code that can throw. *)
Inductive Completion (A : Type) : Type :=
| Normal (a : A)
| Thrown (exn : string).
Arguments Normal {A} a.
Arguments Thrown {A} exn.

(** The result of a method that can throw after it has already changed
    the workspace: the workspace is the one at the time of the throw. *)
Inductive Outcome : Type :=
| Ok (w : Workspace)
| Throw (exn : string) (w : Workspace).

Section Model.

(** [Math.log10], a builtin with irrational values, and the table
    [ColorMap.Maps] of the colormaps module are parameters. *)
Variable log10 : num -> num.
Variable Maps : gmap string ColorMap.

(** ** Scales *)

Definition LOG : Scale.t :=
  Scale.mk "log"
    (fun x => Num (log10 (ToNumber x)))
    (fun x => js_gt x (Num (Fin 0)) && js_lt x (Num PInf))
    "log".

Definition LINEAR : Scale.t :=
  Scale.mk "linear"
    (fun x => x)
    (fun x => js_gt x (Num NInf) && js_lt x (Num PInf))
    "".

(** [Workspace.Scale], in the order [for .. in] visits its keys. *)
Definition Scales : list (string * Scale.t) :=
  [("LOG", LOG); ("LINEAR", LINEAR)].

Fixpoint firstScaleWithId (entries : list (string * Scale.t)) (id : string)
  : option Scale.t :=
  match entries with
  | [] => None
  | (_, s) :: rest =>
      if String.eqb (Scale.id s) id then Some s
      else firstScaleWithId rest id
  end.

Definition getScaleById (id : string) : Completion Scale.t :=
  match firstScaleWithId Scales id with
  | Some s => Normal s
  | None => Thrown ("Invalid scale id: " ++ id)
  end.

(** ** Construction *)

Definition Scene2D_new : Scene2D.t := Scene2D.mk None None None 0 None.
Definition Scene3D_new : Scene3D.t :=
  Scene3D.mk None None None (Num (Fin 1)) 0 None.

Definition Workspace_new : Workspace :=
  let colorMap := Maps !! "VIRIDIS" in
  mkWorkspace UNDEFINED [] None None JNull colorMap LINEAR (Fin 1) true
    (Num (Fin 0)) (Num (Fin 0))
    (Scene3D.set_colorMap colorMap Scene3D_new)
    (Scene2D.set_colorMap colorMap Scene2D_new)
    None None "" ∅ JNull [] 0 [] [].

(** ** Events and tasks *)

(** Modelled from the spec: EventSource is not among the sources.
    Section 4.3: publishing an event calls its subscribers
    synchronously, in subscription order.  [publish] records the
    event; the one subscriber the workspace adds itself (the
    constructor subscribes [_loadPendingSettings] to no-tasks) is
    called by [_notify] below.  Subscribers of other components are
    outside the model. *)
Definition publish (e : Event) (w : Workspace) : Workspace :=
  with_published (published w ++ [e]) w.

(** The object [_doTask] builds and stores: a new worker, and the
    payload posted at once when the worker is a constructor. *)
Definition startWorker (taskType : TaskType.t) (args : Payload)
    (w : Workspace) : Workspace :=
  let handle := workers w in
  let task := Task.mk handle "" args in
  let w := with_workers (S handle) w in
  let w := with_tasks (<[TaskType.key taskType := task]> (_tasks w)) w in
  match TaskType.worker taskType with
  | Constructor _ => with_posted (posted w ++ [(handle, args)]) w
  | Script _ => w
  end.

Definition noTasks (w : Workspace) : bool := Nat.ltb (size (_tasks w)) 1.

(** [_cancelTask], [_notify], [_loadPendingSettings] and [_doTask]
    call each other in a cycle; the embedding follows the calls with
    a bound on their depth. *)
Fixpoint cancelTask_n (fuel : nat) (taskType : TaskType.t) (w : Workspace)
  {struct fuel} : option Workspace :=
  match fuel with
  | O => None
  | S fuel =>
      let w :=
        match _tasks w !! TaskType.key taskType with
        | Some task =>
            let w := with_terminated (terminated w ++ [Task.worker task]) w in
            with_tasks (delete (TaskType.key taskType) (_tasks w)) w
        | None => w
        end in
      if noTasks w then notify_n fuel NO_TASKS w else Some w
  end

with notify_n (fuel : nat) (e : Event) (w : Workspace)
  {struct fuel} : option Workspace :=
  match fuel with
  | O => None
  | S fuel =>
      let w := publish e w in
      match e with
      | NO_TASKS => loadPendingSettings_n fuel w
      | _ => Some w
      end
  end

with loadPendingSettings_n (fuel : nat) (w : Workspace)
  {struct fuel} : option Workspace :=
  match fuel with
  | O => None
  | S fuel =>
      if noTasks w && negb (is_null (_settingsToLoad w)) then
        match doTask_n fuel LOAD_SETTINGS (FirstBlob (_settingsToLoad w)) w with
        | Some w => Some (with_settingsToLoad JNull w)
        | None => None
        end
      else Some w
  end

with doTask_n (fuel : nat) (taskType : TaskType.t) (args : Payload)
    (w : Workspace) {struct fuel} : option Workspace :=
  match fuel with
  | O => None
  | S fuel =>
      let cancelled :=
        match _tasks w !! TaskType.key taskType with
        | Some _ => cancelTask_n fuel taskType w
        | None => Some w
        end in
      match cancelled with
      | Some w => Some (startWorker taskType args w)
      | None => None
      end
  end.

(** Five nested calls are the deepest the cycle goes
    ([sufficient_depth] below), so the methods are the bounded
    functions at that depth. *)
Definition depth : nat := 5.

Definition _cancelTask (taskType : TaskType.t) (w : Workspace) : Workspace :=
  default w (cancelTask_n depth taskType w).

Definition _notify (e : Event) (w : Workspace) : Workspace :=
  default w (notify_n depth e w).

Definition _loadPendingSettings (w : Workspace) : Workspace :=
  default w (loadPendingSettings_n depth w).

Definition _doTask (taskType : TaskType.t) (args : Payload) (w : Workspace)
  : Workspace :=
  default w (doTask_n depth taskType args w).

Definition _setStatus (status : string) (w : Workspace) : Workspace :=
  _notify STATUS_CHANGE (with_status status w).

(** ** Settings *)

Definition loadSettings (blob : list Blob) (w : Workspace) : Workspace :=
  _loadPendingSettings (with_settingsToLoad (nth_ref blob 0) w).

(** The worker of a task reports [completed]: the handler clears the
    status, resolves the promise and cancels the task; the callback
    given to [then] runs right after the handler. *)
Definition onCompleted (taskType : TaskType.t)
    (callback : Workspace -> Workspace) (w : Workspace) : Workspace :=
  callback (_cancelTask taskType (_setStatus "" w)).

(** The callback [_loadPendingSettings] attaches to the settings task. *)
Definition settingsLoaded (settings : Settings) (w : Workspace) : Workspace :=
  _notify SETTINGS_CHANGE (with_loadedSettings (Some settings) w).

(** ** Loading measures *)

Definition _mapMesh (w : Workspace) : Workspace :=
  match Scene3D.geometry (_scene3d w), _spots w with
  | Some geometry, Some spots =>
      _doTask MAP
        (MapArgs geometry spots (Scene3D.globalSpotScale (_scene3d w))) w
  | _, _ => w
  end.

(** The callback [loadIntensities] attaches to the measures task.
    [new THREE.Color()] is white. *)
Definition intensitiesLoaded (spots : list Spot.t)
    (measures : list Measure.t) (w : Workspace) : Workspace :=
  let w :=
    with_spots
      (Some (map (fun spot =>
                    Spot.mk (Spot.name spot) (Num (Fin 1)) "ffffff"
                      (Num (Fin 1)) (Spot.intensity spot)) spots)) w in
  let w := with_measures (Some measures) w in
  let w := with_activeMeasure JNull w in
  let w :=
    match _mode w with
    | MODE_3D =>
        let w := with_scene3d (Scene3D.set_spots (_spots w) (_scene3d w)) w in
        _mapMesh w
    | MODE_2D => with_scene2d (Scene2D.set_spots (_spots w) (_scene2d w)) w
    | UNDEFINED => w
    end in
  _notify INTENSITIES_CHANGE w.

(** ** Intensity pipeline *)

(** The comparison function handed to [sort]. *)
Definition comparefn (a b : num) : num := num_sub a b.

(** [Array.prototype.sort]: [x] goes after [y] when the comparison
    function is positive on them.  The order among elements the
    function calls equal is up to the engine; on numbers these are
    equal values. *)
Fixpoint sort_insert (x : num) (l : list num) : list num :=
  match l with
  | [] => [x]
  | y :: rest =>
      if num_ltb (Fin 0) (comparefn x y) then y :: sort_insert x rest
      else x :: y :: rest
  end.

Definition sort (l : list num) : list num := foldr sort_insert [] l.

(** The filtered and sorted raw values of the active measure. *)
Definition sortedValues (w : Workspace) : list num :=
  let values :=
    match _activeMeasure w with
    | JObj m => Measure.values m
    | _ => []
    end in
  sort (List.filter (fun x => Scale.filter (_scale w) (Num x)) values).

(** The index [Math.ceil((values.length - 1) * hotspotQuantile)]. *)
Definition hotspotIndex (n : nat) (q : num) : num :=
  num_ceil (num_mul (ofZ (Z.of_nat n - 1)) q).

(** Returns whether the bounds changed, and the workspace. *)
Definition _updateMinMaxValues (w : Workspace) : bool * Workspace :=
  let values := sortedValues w in
  let minValue :=
    if Nat.ltb 0 (length values)
    then Scale.function (_scale w) (array_get values (Fin 0))
    else Num (Fin 0) in
  let maxValue :=
    if Nat.ltb 0 (length values)
    then Scale.function (_scale w)
           (array_get values (hotspotIndex (length values) (_hotspotQuantile w)))
    else Num (Fin 0) in
  if js_neq (_minValue w) minValue || js_neq (_maxValue w) maxValue then
    let w := with_minValue minValue w in
    let w := with_maxValue maxValue w in
    let w := _notify AUTO_MAPPING_CHANGE w in
    let w := _notify MAPPING_CHANGE w in
    (true, w)
  else (false, w).

(** [this._activeMeasure && this._scale.function(this._activeMeasure.values[i])] *)
Definition scaledValue (w : Workspace) (i : nat) : val :=
  match _activeMeasure w with
  | JNull => Null
  | JUndef => Undef
  | JObj m =>
      Scale.function (_scale w)
        match Measure.values m !! i with
        | Some x => Num x
        | None => Undef
        end
  end.

(** The body of the loop of [_updateIntensities]. *)
Definition intensityAt (w : Workspace) (i : nat) : val :=
  let scaledValue := scaledValue w i in
  if js_ge scaledValue (_maxValue w) then Num (Fin 1)
  else if js_ge scaledValue (_minValue w) then
    js_div (js_sub scaledValue (_minValue w))
           (js_sub (_maxValue w) (_minValue w))
  else Num NaN.


Definition _updateIntensities (w : Workspace) : Workspace :=
  match _spots w with
  | None => w
  | Some spots =>
      let spots := imap (fun i s => Spot.set_intensity (intensityAt w i) s) spots in
      let w := with_spots (Some spots) w in
      let w := with_scene3d (Scene3D.updateIntensities spots (_scene3d w)) w in
      with_scene2d (Scene2D.updateIntensities spots (_scene2d w)) w
  end.

Definition selectMapByIndex (index : Z) (w : Workspace) : Workspace :=
  match _measures w with
  | None => w
  | Some measures =>
      let w := with_activeMeasure (nth_ref measures index) w in
      let w := if _autoMinMax w then snd (_updateMinMaxValues w) else w in
      _updateIntensities w
  end.


(** [a() && b()] on the two recomputations. *)
Definition updateBoundsThenIntensities (w : Workspace) : Workspace :=
  let '(changed, w) := _updateMinMaxValues w in
  if changed then _updateIntensities w else w.

Definition set_autoMinMax (value : bool) (w : Workspace) : Workspace :=
  let w := with_autoMinMax value w in
  let w := if _autoMinMax w then updateBoundsThenIntensities w else w in
  _notify AUTO_MAPPING_CHANGE w.

Definition set_minValue (value : val) (w : Workspace) : Workspace :=
  if _autoMinMax w then w
  else
    let w := with_minValue (Num (ToNumber value)) w in
    let w := _updateIntensities w in
    _notify MAPPING_CHANGE w.

Definition set_maxValue (value : val) (w : Workspace) : Workspace :=
  if _autoMinMax w then w
  else
    let w := with_maxValue (Num (ToNumber value)) w in
    let w := _updateIntensities w in
    _notify MAPPING_CHANGE w.

Definition set_hotspotQuantile (value : num) (w : Workspace) : Workspace :=
  if num_eqb (_hotspotQuantile w) value then w
  else
    let value := if num_ltb value (Fin 0) then Fin 0 else value in
    let value := if num_ltb (Fin 1) value then Fin 1 else value in
    let w := with_hotspotQuantile value w in
    if _autoMinMax w then updateBoundsThenIntensities w else w.

Definition set_scaleId (value : string) (w : Workspace) : Outcome :=
  if String.eqb (Scale.id (_scale w)) value then Ok w
  else
    match getScaleById value with
    | Thrown exn => Throw exn w
    | Normal s =>
        let w := with_scale s w in
        let w := if _autoMinMax w then snd (_updateMinMaxValues w) else w in
        let w := _updateIntensities w in
        Ok (_notify MAPPING_CHANGE w)
    end.

Definition set_colorMapId (value : string) (w : Workspace) : Outcome :=
  match Maps !! value with
  | Some colorMap =>
      let w := with_colorMap (Some colorMap) w in
      let w := with_scene2d (Scene2D.set_colorMap (_colorMap w) (_scene2d w)) w in
      let w := with_scene3d (Scene3D.set_colorMap (_colorMap w) (_scene3d w)) w in
      Ok (_notify MAPPING_CHANGE w)
  | None => Ok w
  end.

(** ** Mode *)

Definition set_mode (value : Mode) (w : Workspace) : Workspace :=
  if Mode_eqb (_mode w) value then w
  else
    let w := with_mode value w in
    let w :=
      if Mode_eqb (_mode w) MODE_2D then
        let w := with_scene2d (Scene2D.set_spots (_spots w) (_scene2d w)) w in
        with_currentScene (Some TheScene2D) w
      else
        let w := with_scene2d (Scene2D.resetImage (_scene2d w)) w in
        let w := with_scene2d (Scene2D.set_spots None (_scene2d w)) w in
        _cancelTask LOAD_IMAGE w in
    let w :=
      if Mode_eqb (_mode w) MODE_3D then
        let w := with_scene3d (Scene3D.set_spots (_spots w) (_scene3d w)) w in
        with_currentScene (Some TheScene3D) w
      else
        let w := with_scene3d (Scene3D.set_geometry None (_scene3d w)) w in
        let w := with_scene3d (Scene3D.set_spots None (_scene3d w)) w in
        _cancelTask LOAD_MESH w in
    _notify MODE_CHANGE w.

(** ** Per-spot properties *)

(** [this._currentScene.spots], through the reference. *)
Definition sceneSpots (r : SceneRef) (w : Workspace) : option (list Spot.t) :=
  match r with
  | TheScene2D => Scene2D.spots (_scene2d w)
  | TheScene3D => Scene3D.spots (_scene3d w)
  end.

Definition with_sceneSpots (r : SceneRef) (l : list Spot.t) (w : Workspace)
  : Workspace :=
  match r with
  | TheScene2D => with_scene2d (Scene2D.set_spots (Some l) (_scene2d w)) w
  | TheScene3D => with_scene3d (Scene3D.set_spots (Some l) (_scene3d w)) w
  end.

Definition refreshScene (r : SceneRef) (w : Workspace) : Workspace :=
  match r with
  | TheScene2D => with_scene2d (Scene2D.refreshSpots (_scene2d w)) w
  | TheScene3D => with_scene3d (Scene3D.refreshSpots (_scene3d w)) w
  end.

(** The loop of the [set] accessor built by [_createSpotsProperty],
    from index [i] for [todo] more spots.  It throws when the current
    scene has no spot at an index it is asked to update. *)
Fixpoint setSpots (setter : Spot.t -> gmap string val -> Spot.t)
    (values : gmap string val) (todo i : nat) (w : Workspace) : Outcome :=
  match todo with
  | O => Ok w
  | S todo =>
      match _spots w with
      | None => Ok w
      | Some spots =>
          match spots !! i with
          | None => Ok w
          | Some spot =>
              match values !! Spot.name spot with
              | Some _ =>
                  let w := with_spots (Some (<[i := setter spot values]> spots)) w in
                  match _currentScene w with
                  | None => setSpots setter values todo (S i) w
                  | Some r =>
                      match sceneSpots r w ≫= (fun l => l !! i) with
                      | Some sceneSpot =>
                          let l := default [] (sceneSpots r w) in
                          let w := with_sceneSpots r
                                     (<[i := setter sceneSpot values]> l) w in
                          setSpots setter values todo (S i) w
                      | None => Throw "TypeError" w
                      end
                  end
              | None => setSpots setter values todo (S i) w
              end
          end
      end
  end.

Definition spotsProperty_set (setter : Spot.t -> gmap string val -> Spot.t)
    (postModificationCallback : option (Workspace -> Workspace))
    (values : gmap string val) (w : Workspace) : Outcome :=
  match _spots w with
  | None => Ok w
  | Some spots =>
      match setSpots setter values (length spots) 0 w with
      | Throw exn w => Throw exn w
      | Ok w =>
          match postModificationCallback with
          | Some callback => Ok (callback w)
          | None =>
              match _currentScene w with
              | Some r => Ok (refreshScene r w)
              | None => Ok w
              end
          end
      end
  end.

Definition spotsProperty_get (getter : Spot.t -> val) (w : Workspace)
  : gmap string val :=
  let spots :=
    match _currentScene w with
    | Some r => sceneSpots r w
    | None => _spots w
    end in
  match spots with
  | None => ∅
  | Some spots =>
      foldl (fun result spot => <[Spot.name spot := getter spot]> result) ∅ spots
  end.

(** The setter handed to [_createSpotsProperty] for [spotVisibility]. *)
Definition visibilitySetter (spot : Spot.t) (visibility : gmap string val)
  : Spot.t :=
  let v := default Undef (visibility !! Spot.name spot) in
  let v :=
    if js_lt v (Num (Fin 0)) then Num (Fin 0)
    else if js_gt v (Num (Fin 1)) then Num (Fin 1)
    else v in
  Spot.set_visibility v spot.

Definition get_spotVisibility (w : Workspace) : gmap string val :=
  spotsProperty_get Spot.visibility w.

Definition set_spotVisibility (values : gmap string val) (w : Workspace)
  : Outcome :=
  spotsProperty_set visibilitySetter None values w.

(** ** Closed forms used in the statements *)

(** The first half of [_cancelTask]: terminate and forget the task. *)
Definition removeTask (taskType : TaskType.t) (w : Workspace) : Workspace :=
  match _tasks w !! TaskType.key taskType with
  | Some task =>
      let w := with_terminated (terminated w ++ [Task.worker task]) w in
      with_tasks (delete (TaskType.key taskType) (_tasks w)) w
  | None => w
  end.

(** What [_loadPendingSettings] amounts to. *)
Definition drained (w : Workspace) : Workspace :=
  if noTasks w && negb (is_null (_settingsToLoad w)) then
    with_settingsToLoad JNull
      (startWorker LOAD_SETTINGS (FirstBlob (_settingsToLoad w)) w)
  else w.

End Model.

(** * Vocabulary of the statements *)

(** [a <= b] as the language decides it. *)
Definition num_le (a b : num) : Prop := num_geb b a = true.

Definition finite (a : num) : Prop :=
  match a with
  | Fin _ => True
  | _ => False
  end.

(** The raw values a scale keeps. *)
Definition survivors (s : Scale.t) (values : list num) : list num :=
  List.filter (fun x => Scale.filter s (Num x)) values.

(** The rank [ceil((n - 1) * q)]. *)
Definition rank (n : nat) (q : Qc) : nat :=
  Z.to_nat (Qceiling (inject_Z (Z.of_nat n - 1) * q)).

(** The state the 2D mode owns is cleared: no image, no spots in the
    2D scene, no image load running. *)
Definition cleared2D (w : Workspace) : Prop :=
  Scene2D.image (_scene2d w) = None
  /\ Scene2D.spots (_scene2d w) = None
  /\ _tasks w !! "load-image" = None.

(** The state the 3D mode owns is cleared: no geometry, no spots in the
    3D scene, no mesh load running. *)
Definition cleared3D (w : Workspace) : Prop :=
  Scene3D.geometry (_scene3d w) = None
  /\ Scene3D.spots (_scene3d w) = None
  /\ _tasks w !! "load-mesh" = None.

(** The fields a mode switch has no business with. *)
Definition sameData (w w' : Workspace) : Prop :=
  _spots w' = _spots w /\ _measures w' = _measures w
  /\ _activeMeasure w' = _activeMeasure w /\ _scale w' = _scale w
  /\ _colorMap w' = _colorMap w /\ _hotspotQuantile w' = _hotspotQuantile w
  /\ _autoMinMax w' = _autoMinMax w /\ _minValue w' = _minValue w
  /\ _maxValue w' = _maxValue w /\ _errors w' = _errors w
  /\ _status w' = _status w /\ _loadedSettings w' = _loadedSettings w.




(** * Sample data *)

(** A table of colour maps with two entries. *)
Definition sampleMaps : gmap string ColorMap :=
  <["VIRIDIS" := ColorMapObject 0]> (<["JET" := ColorMapObject 1]> ∅).

(** An instance of the logarithm for the closed examples, defined on
    the four powers of ten they may meet. *)
Definition sample_log10 (x : num) : num :=
  if num_eqb x (ofZ 1) then ofZ 0
  else if num_eqb x (ofZ 10) then ofZ 1
  else if num_eqb x (ofZ 100) then ofZ 2
  else if num_eqb x (ofZ 1000) then ofZ 3
  else NaN.

(** A spot as the measures loader hands it over. *)
Definition loaderSpot (name : string) : Spot.t :=
  Spot.mk name Undef "" Undef Undef.

Definition fiveSpots : list Spot.t :=
  map loaderSpot ["a"; "b"; "c"; "d"; "e"].

Definition oneToFive : Measure.t :=
  Measure.mk "m" [ofZ 1; ofZ 2; ofZ 3; ofZ 4; ofZ 5].

(** A new workspace. *)
Definition newWorkspace : Workspace := Workspace_new sampleMaps.

(** The workspace once a measures file with five spots and the measure
    1..5 has been loaded. *)
Definition loaded : Workspace := intensitiesLoaded fiveSpots [oneToFive] newWorkspace.

(** Then the hotspot quantile is set to one half. *)
Definition halfQuantile : Workspace := set_hotspotQuantile oneHalf loaded.

(** Then the measure is selected. *)
Definition selected : Workspace := selectMapByIndex 0 halfQuantile.

(** The same workspace with the measure made active by hand, before any
    bound is recomputed. *)
Definition measureChosen : Workspace :=
  with_activeMeasure (JObj oneToFive) halfQuantile.

(** Manual bounds, both 5, on the selected measure. *)
Definition equalBounds : Workspace :=
  set_maxValue (Num (ofZ 5))
    (set_minValue (Num (ofZ 5)) (with_autoMinMax false selected)).

(** A new workspace with an image load running. *)
Definition imageLoading : Workspace :=
  _doTask LOAD_IMAGE (FirstBlob (JObj "picture")) newWorkspace.


(** * More of the workspace

    The methods below complete the embedding: the error list, the
    handlers of the worker messages, the load requests for images,
    meshes and measures with their callbacks, and the spot scale
    accessor. *)

Definition with_errors (v : list string) (w : Workspace) : Workspace :=
  mkWorkspace (_mode w) v (_spots w) (_measures w) (_activeMeasure w)
    (_colorMap w) (_scale w) (_hotspotQuantile w) (_autoMinMax w)
    (_minValue w) (_maxValue w) (_scene3d w) (_scene2d w) (_currentScene w)
    (_loadedSettings w) (_status w) (_tasks w) (_settingsToLoad w)
    (published w) (workers w) (terminated w) (posted w).

(** ** Errors *)

Definition clearErrors (w : Workspace) : Workspace :=
  _notify ERRORS_CHANGE (with_errors [] w).

Definition _addError (message : string) (w : Workspace) : Workspace :=
  _notify ERRORS_CHANGE (with_errors (_errors w ++ [message]) w).

(** ** Worker messages

    The handlers [_doTask] installs on the worker of a task.
    [onCompleted] above is the one for [completed].  No caller attaches
    a rejection callback to the promise, so rejecting it changes
    nothing in the workspace. *)

(** [failed]: reject, cancel the task, clear the status, log the
    message. *)
Definition onFailed (taskType : TaskType.t) (message : string)
    (w : Workspace) : Workspace :=
  let w := _cancelTask taskType w in
  let w := _setStatus "" w in
  _addError ("Operation failed: " ++ message) w.

(** [working]: show the message as the status. *)
Definition onWorking (message : string) (w : Workspace) : Workspace :=
  _setStatus message w.

(** [ready]: the worker is posted the payload its task was started
    with. *)
Definition onReady (task : Task.t) (w : Workspace) : Workspace :=
  with_posted (posted w ++ [(Task.worker task, Task.args task)]) w.

(** [onerror], the worker itself failing. *)
Definition onerror (w : Workspace) : Workspace :=
  let w := _setStatus "" w in
  _addError "Operation failed. See log for details." w.

(** ** Load requests *)

(** Modelled from the spec: [Scene2D.setImage(url, width, height)] is
    not among the sources; the scene then has the image of that url. *)
Definition Scene2D_setImage (url : Image) (width height : num)
    (s : Scene2D.t) : Scene2D.t :=
  Scene2D.mk (Scene2D.spots s) (Scene2D.colorMap s) (Some url)
    (Scene2D.refreshes s) (Scene2D.pushed s).

Definition loadImage (blob : list Blob) (w : Workspace) : Workspace :=
  let w := set_mode MODE_2D w in
  let w := with_scene2d (Scene2D.resetImage (_scene2d w)) w in
  _doTask LOAD_IMAGE (FirstBlob (nth_ref blob 0)) w.

(** The callback [loadImage] attaches to the image task. *)
Definition imageLoaded (url : Image) (width height : num) (w : Workspace)
  : Workspace :=
  with_scene2d (Scene2D_setImage url width height (_scene2d w)) w.

Definition loadMesh (blob : list Blob) (w : Workspace) : Workspace :=
  let w := set_mode MODE_3D w in
  _doTask LOAD_MESH (FirstBlob (nth_ref blob 0)) w.

(** The callback [loadMesh] attaches to the mesh task, for the geometry
    built from the result.  The material name also handed to the scene
    is a property of the scene that the model does not follow. *)
Definition meshLoaded (geometry : Geometry) (w : Workspace) : Workspace :=
  let w := with_scene3d (Scene3D.set_geometry (Some geometry) (_scene3d w)) w in
  match _spots w with
  | Some _ =>
      let w := with_scene3d (Scene3D.set_spots (_spots w) (_scene3d w)) w in
      _mapMesh w
  | None => w
  end.

Definition loadIntensities (blob : list Blob) (w : Workspace) : Workspace :=
  _doTask LOAD_MEASURES (FirstBlob (nth_ref blob 0)) w.

(** ** Spot scale *)

Definition _onSpotScaleChange (w : Workspace) : Workspace :=
  match _mode w with
  | MODE_3D => _mapMesh w
  | MODE_2D => with_scene2d (Scene2D.refreshSpots (_scene2d w)) w
  | UNDEFINED => w
  end.

(** The setter handed to [_createSpotsProperty] for [spotScale]. *)
Definition scaleSetter (spot : Spot.t) (scale : gmap string val) : Spot.t :=
  let s := default Undef (scale !! Spot.name spot) in
  let s := if js_lt s (Num (Fin 0)) then Num (Fin 0) else s in
  Spot.mk (Spot.name spot) s (Spot.color spot) (Spot.visibility spot)
    (Spot.intensity spot).

Definition get_spotScale (w : Workspace) : gmap string val :=
  spotsProperty_get Spot.scale w.

Definition set_spotScale (values : gmap string val) (w : Workspace)
  : Outcome :=
  spotsProperty_set scaleSetter (Some _onSpotScaleChange) values w.

(** [measures]: the list, empty when none is loaded. *)
Definition measures (w : Workspace) : list Measure.t :=
  default [] (_measures w).

(** * Vocabulary of the further statements *)

(** A number between 0 and 1. *)
Definition inUnit (a : num) : Prop :=
  exists q : Qc, a = Fin q /\ (0 <= q)%Qc /\ (q <= 1)%Qc.

(** The two bounds [_updateMinMaxValues] computes before it compares
    them with the stored ones. *)
Definition autoBounds (w : Workspace) : val * val :=
  let values := sortedValues w in
  (if Nat.ltb 0 (length values)
   then Scale.function (_scale w) (array_get values (Fin 0))
   else Num (Fin 0),
   if Nat.ltb 0 (length values)
   then Scale.function (_scale w)
          (array_get values (hotspotIndex (length values) (_hotspotQuantile w)))
   else Num (Fin 0)).

(** ** Histories

    What can happen to a workspace: the calls of its public interface
    and the messages of the workers of its tasks. *)
Inductive Happening : Type :=
| CallLoadImage (blob : list Blob)
| CallLoadMesh (blob : list Blob)
| CallLoadIntensities (blob : list Blob)
| CallLoadSettings (blob : list Blob)
| CallSelectMapByIndex (index : Z)
| AssignMode (value : Mode)
| AssignAutoMinMax (value : bool)
| AssignMinValue (value : val)
| AssignMaxValue (value : val)
| AssignHotspotQuantile (value : num)
| AssignScaleId (value : string)
| AssignColorMapId (value : string)
| AssignSpotVisibility (values : gmap string val)
| AssignSpotScale (values : gmap string val)
| CallClearErrors
| ImageCompleted (url : Image) (width height : num)
| MeshCompleted (geometry : Geometry)
| MeasuresCompleted (spots : list Spot.t) (measures : list Measure.t)
| SettingsCompleted (settings : Settings)
| MapCompleted
| TaskFailed (taskType : TaskType.t) (message : string)
| TaskWorking (taskType : TaskType.t) (message : string)
| WorkerReady (taskType : TaskType.t)
| WorkerError (taskType : TaskType.t).

(** The workspace a method leaves behind, whether it returned or
    threw. *)
Definition after (o : Outcome) : Workspace :=
  match o with
  | Ok w => w
  | Throw _ w => w
  end.

(** A worker sends messages only while its task is registered: a
    cancelled worker is terminated. *)
Definition whenRunning (taskType : TaskType.t)
    (handler : Task.t -> Workspace -> Workspace) (w : Workspace) : Workspace :=
  match _tasks w !! TaskType.key taskType with
  | Some task => handler task w
  | None => w
  end.

(** The callback of the mapping task writes the scene's [mapping]
    property, which the model does not follow. *)
Definition mapped (w : Workspace) : Workspace := w.

Definition happen (log10 : num -> num) (Maps : gmap string ColorMap)
    (h : Happening) (w : Workspace) : Workspace :=
  match h with
  | CallLoadImage blob => loadImage blob w
  | CallLoadMesh blob => loadMesh blob w
  | CallLoadIntensities blob => loadIntensities blob w
  | CallLoadSettings blob => loadSettings blob w
  | CallSelectMapByIndex index => selectMapByIndex index w
  | AssignMode value => set_mode value w
  | AssignAutoMinMax value => set_autoMinMax value w
  | AssignMinValue value => set_minValue value w
  | AssignMaxValue value => set_maxValue value w
  | AssignHotspotQuantile value => set_hotspotQuantile value w
  | AssignScaleId value => after (set_scaleId log10 value w)
  | AssignColorMapId value => after (set_colorMapId Maps value w)
  | AssignSpotVisibility values => after (set_spotVisibility values w)
  | AssignSpotScale values => after (set_spotScale values w)
  | CallClearErrors => clearErrors w
  | ImageCompleted url width height =>
      whenRunning LOAD_IMAGE
        (fun _ => onCompleted LOAD_IMAGE (imageLoaded url width height)) w
  | MeshCompleted geometry =>
      whenRunning LOAD_MESH
        (fun _ => onCompleted LOAD_MESH (meshLoaded geometry)) w
  | MeasuresCompleted spots measures =>
      whenRunning LOAD_MEASURES
        (fun _ => onCompleted LOAD_MEASURES (intensitiesLoaded spots measures)) w
  | SettingsCompleted settings =>
      whenRunning LOAD_SETTINGS
        (fun _ => onCompleted LOAD_SETTINGS (settingsLoaded settings)) w
  | MapCompleted => whenRunning MAP (fun _ => onCompleted MAP mapped) w
  | TaskFailed taskType message =>
      whenRunning taskType (fun _ => onFailed taskType message) w
  | TaskWorking taskType message =>
      whenRunning taskType (fun _ => onWorking message) w
  | WorkerReady taskType => whenRunning taskType onReady w
  | WorkerError taskType => whenRunning taskType (fun _ => onerror) w
  end.

(** A history, oldest happening first, from a new workspace. *)
Definition history (log10 : num -> num) (Maps : gmap string ColorMap)
    (hs : list Happening) : Workspace :=
  foldl (fun w h => happen log10 Maps h w) (Workspace_new Maps) hs.

(** What the invariants below speak about. *)
Definition hasSpots (o : option (list Spot.t)) : bool :=
  match o with
  | Some _ => true
  | None => false
  end.

(** No task runs, so no settings payload waits. *)
Definition idleMeansDrained (w : Workspace) : Prop :=
  _tasks w = ∅ -> _settingsToLoad w = JNull.

(** An image load runs only in the 2D mode, a mesh load only in the 3D
    mode. *)
Definition loadsMatchMode (w : Workspace) : Prop :=
  (is_Some (_tasks w !! "load-image") -> _mode w = MODE_2D)
  /\ (is_Some (_tasks w !! "load-mesh") -> _mode w = MODE_3D).

(** Outside the 2D mode the 2D scene has no image and no spots; outside
    the 3D mode the 3D scene has no geometry and no spots. *)
Definition scenesMatchMode (w : Workspace) : Prop :=
  (_mode w <> MODE_2D ->
   Scene2D.image (_scene2d w) = None /\ Scene2D.spots (_scene2d w) = None)
  /\ (_mode w <> MODE_3D ->
      Scene3D.geometry (_scene3d w) = None /\ Scene3D.spots (_scene3d w) = None).

(** Both scenes have the colour map of the workspace. *)
Definition colorMapsAgree (w : Workspace) : Prop :=
  Scene2D.colorMap (_scene2d w) = _colorMap w
  /\ Scene3D.colorMap (_scene3d w) = _colorMap w.

(** The hotspot quantile is NaN or between 0 and 1. *)
Definition quantileClamped (w : Workspace) : Prop :=
  _hotspotQuantile w = NaN \/ inUnit (_hotspotQuantile w).

(** The scale is one of the two registered ones. *)
Definition scaleRegistered (log10 : num -> num) (w : Workspace) : Prop :=
  _scale w = LINEAR \/ _scale w = LOG log10.

(** The fields the invariants depend on, apart from the tasks and the
    pending settings. *)
Definition display (w : Workspace) :=
  (_mode w, _colorMap w, _hotspotQuantile w, _scale w,
   (Scene2D.image (_scene2d w), hasSpots (Scene2D.spots (_scene2d w)),
    Scene2D.colorMap (_scene2d w)),
   (Scene3D.geometry (_scene3d w), hasSpots (Scene3D.spots (_scene3d w)),
    Scene3D.colorMap (_scene3d w))).

Definition essence (w : Workspace) :=
  (_tasks w, _settingsToLoad w, display w).

(** The invariants of a workspace history. *)
Definition invariant (log10 : num -> num) (w : Workspace) : Prop :=
  idleMeansDrained w /\ loadsMatchMode w /\ scenesMatchMode w
  /\ colorMapsAgree w /\ quantileClamped w /\ scaleRegistered log10 w.

(** * More sample data *)

(** Settings are requested on a new workspace and their load
    completes. *)
Definition settingsStory : list Happening :=
  [CallLoadSettings ["settings"]; SettingsCompleted "loaded"].

(** An image is requested and loaded, then a mesh is requested. *)
Definition imageThenMeshStory : list Happening :=
  [CallLoadImage ["picture"]; ImageCompleted "url" (ofZ 640) (ofZ 480);
   CallLoadMesh ["mesh"]].

(** A new workspace with a measures load running. *)
Definition measuresLoading : Workspace :=
  loadIntensities ["table"] newWorkspace.

(** The chosen measure under the logarithmic scale, with a quantile
    that is not a number. *)
Definition nanQuantileLog : Workspace :=
  with_hotspotQuantile NaN (with_scale (LOG sample_log10) measureChosen).



(** The task of the image load of [imageLoading]. *)
Definition pictureTask : Task.t :=
  Task.mk 0 "" (FirstBlob (JObj "picture")).
(** * Properties *)

(** ** The call cycle terminates *)

Lemma noTasks_empty w : noTasks w = true <-> _tasks w = ∅.
Proof.
  unfold noTasks. rewrite Nat.ltb_lt. split.
  - intros H. apply map_size_empty_iff. lia.
  - intros ->. rewrite map_size_empty. lia.
Qed.

Lemma noTasks_lookup w k : noTasks w = true -> _tasks w !! k = None.
Proof. intros H. apply noTasks_empty in H. rewrite H. apply lookup_empty. Qed.

Lemma doTask_n_fresh n taskType args w :
  _tasks w !! TaskType.key taskType = None ->
  doTask_n (S n) taskType args w = Some (startWorker taskType args w).
Proof. intros H. simpl. rewrite H. reflexivity. Qed.

Lemma loadPendingSettings_n_eq n w :
  loadPendingSettings_n (S (S n)) w = Some (drained w).
Proof.
  unfold drained. cbn [loadPendingSettings_n].
  destruct (noTasks w) eqn:E; cbn [andb]; [|reflexivity].
  destruct (is_null (_settingsToLoad w)); cbn [negb]; [reflexivity|].
  rewrite doTask_n_fresh by (apply noTasks_lookup; exact E).
  reflexivity.
Qed.

Lemma notify_n_eq n e w :
  notify_n (S (S (S n))) e w =
  Some match e with
       | NO_TASKS => drained (publish e w)
       | _ => publish e w
       end.
Proof.
  cbn [notify_n]. destruct e; try reflexivity.
  apply loadPendingSettings_n_eq.
Qed.

Lemma cancelTask_n_eq n taskType w :
  cancelTask_n (S (S (S (S n)))) taskType w =
  Some (let w := removeTask taskType w in
        if noTasks w then drained (publish NO_TASKS w) else w).
Proof.
  cbn [cancelTask_n]. fold (removeTask taskType w).
  destruct (noTasks (removeTask taskType w)); [|reflexivity].
  apply (notify_n_eq n NO_TASKS).
Qed.

Lemma doTask_n_eq n taskType args w :
  doTask_n (S (S (S (S (S n))))) taskType args w =
  Some (startWorker taskType args
          match _tasks w !! TaskType.key taskType with
          | Some _ =>
              let w := removeTask taskType w in
              if noTasks w then drained (publish NO_TASKS w) else w
          | None => w
          end).
Proof.
  cbn [doTask_n].
  destruct (_tasks w !! TaskType.key taskType) eqn:E; [|reflexivity].
  rewrite cancelTask_n_eq. reflexivity.
Qed.

(** Any depth from five on gives every method of the cycle its
    result, and the same one. *)
Lemma sufficient_depth n taskType args e w :
  cancelTask_n (depth + n) taskType w = Some (_cancelTask taskType w)
  /\ notify_n (depth + n) e w = Some (_notify e w)
  /\ loadPendingSettings_n (depth + n) w = Some (_loadPendingSettings w)
  /\ doTask_n (depth + n) taskType args w = Some (_doTask taskType args w).
Proof.
  unfold _cancelTask, _notify, _loadPendingSettings, _doTask, depth.
  change (5 + n) with (S (S (S (S (S n))))).
  rewrite !cancelTask_n_eq, !notify_n_eq, !loadPendingSettings_n_eq,
    !doTask_n_eq.
  repeat split.
Qed.

Lemma _loadPendingSettings_eq w : _loadPendingSettings w = drained w.
Proof. unfold _loadPendingSettings, depth. by rewrite loadPendingSettings_n_eq. Qed.

Lemma _notify_eq e w :
  _notify e w =
  match e with
  | NO_TASKS => drained (publish e w)
  | _ => publish e w
  end.
Proof. unfold _notify, depth. by rewrite notify_n_eq. Qed.

Lemma _cancelTask_eq taskType w :
  _cancelTask taskType w =
  let w := removeTask taskType w in
  if noTasks w then drained (publish NO_TASKS w) else w.
Proof. unfold _cancelTask, depth. by rewrite cancelTask_n_eq. Qed.

Lemma _doTask_fresh taskType args w :
  _tasks w !! TaskType.key taskType = None ->
  _doTask taskType args w = startWorker taskType args w.
Proof. intros H. unfold _doTask, depth. by rewrite doTask_n_fresh. Qed.

(** ** Numbers *)

Lemma Qcltb_lt (a b : Qc) : Qcltb a b = true <-> (a < b)%Qc.
Proof.
  unfold Qcltb. rewrite negb_true_iff, <- not_true_iff_false, Qle_bool_iff.
  split; [apply Qcnot_le_lt | apply Qclt_not_le].
Qed.

Lemma Qcltb_ge (a b : Qc) : Qcltb a b = false <-> (b <= a)%Qc.
Proof.
  unfold Qcltb. rewrite negb_false_iff, Qle_bool_iff. reflexivity.
Qed.

Lemma Qceqb_eq (a b : Qc) : Qceqb a b = true <-> a = b.
Proof.
  unfold Qceqb. rewrite Qeq_bool_iff. split.
  - apply Qc_is_canon.
  - intros ->. reflexivity.
Qed.

Lemma num_eqb_eq (a b : num) : num_eqb a b = true -> a = b.
Proof.
  destruct a, b; simpl; try discriminate; try reflexivity.
  intros H. apply Qceqb_eq in H. congruence.
Qed.

Lemma js_eq_Num (v : val) (x : num) : js_eq v (Num x) = true -> v = Num x.
Proof.
  destruct v; simpl; try discriminate.
  intros H. apply num_eqb_eq in H. congruence.
Qed.


#[local] Instance num_le_trans : Transitive num_le.
Proof.
  intros a b c. destruct a, b, c; unfold num_le; simpl; try done.
  rewrite !negb_true_iff, !Qcltb_ge. intros H1 H2.
  eapply Qcle_trans; eassumption.
Qed.

#[local] Instance num_le_antisym : AntiSymm (=) num_le.
Proof.
  intros a b. destruct a, b; unfold num_le; simpl; try done.
  rewrite !negb_true_iff, !Qcltb_ge. intros H1 H2.
  f_equal. apply Qcle_antisym; assumption.
Qed.


(** ** Sorting *)

Lemma sort_insert_perm x l : sort_insert x l ≡ₚ x :: l.
Proof.
  induction l as [|y l IH]; cbn [sort_insert sort foldr]; [reflexivity|].
  destruct (num_ltb (Fin 0) (comparefn x y)); [|reflexivity].
  rewrite IH. apply Permutation_swap.
Qed.

Lemma sort_perm l : sort l ≡ₚ l.
Proof.
  induction l as [|x l IH]; cbn [sort_insert sort foldr]; [reflexivity|].
  rewrite sort_insert_perm. by rewrite IH.
Qed.





(** ** Scale domains *)

Lemma LINEAR_filter_spec x : Scale.filter LINEAR (Num x) = true <-> finite x.
Proof. destruct x; simpl; intuition (try discriminate). Qed.

Lemma LOG_filter_spec log10 x :
  Scale.filter (LOG log10) (Num x) = true <-> exists q, x = Fin q /\ (0 < q)%Qc.
Proof.
  destruct x as [| |q|]; simpl.
  - split; [discriminate|]. by intros (q & ? & _).
  - split; [discriminate|]. by intros (q & ? & _).
  - unfold js_gt, js_lt. simpl. rewrite andb_true_r, Qcltb_lt. split.
    + intros H. by exists q.
    + by intros (q' & [= <-] & H).
  - split; [discriminate|]. by intros (q & ? & _).
Qed.


(** ** The hotspot index *)

Lemma ofZ_this z : this (Q2Qc (inject_Z z)) = inject_Z z.
Proof. simpl. apply inject_Z_Qred. Qed.

Lemma array_get_ofZ l (k : nat) :
  array_get l (ofZ (Z.of_nat k)) =
  match l !! k with
  | Some x => Num x
  | None => Undef
  end.
Proof.
  unfold array_get, ofZ. rewrite ofZ_this. simpl.
  replace (0 <=? Z.of_nat k)%Z with true by (symmetry; apply Z.leb_le; lia).
  simpl. by rewrite Nat2Z.id.
Qed.

Lemma rank_bounds n (q : Qc) :
  (0 < n)%nat -> (0 <= q)%Qc -> (q <= 1)%Qc ->
  (0 <= Qceiling (inject_Z (Z.of_nat n - 1) * q) <= Z.of_nat n - 1)%Z.
Proof.
  intros Hn H0 H1.
  assert (Hk : (0 <= inject_Z (Z.of_nat n - 1))%Q).
  { change 0%Q with (inject_Z 0). rewrite <- Zle_Qle. lia. }
  split.
  - rewrite <- (Qceiling_Z 0). apply Qceiling_resp_le.
    apply Qmult_le_0_compat; [exact Hk | exact H0].
  - rewrite <- (Qceiling_Z (Z.of_nat n - 1)) at 2. apply Qceiling_resp_le.
    rewrite <- (Qmult_1_r (inject_Z (Z.of_nat n - 1))) at 2.
    apply Qmult_le_compat_nonneg.
    + split; [exact Hk | apply Qle_refl].
    + split; [exact H0 | exact H1].
Qed.

Lemma hotspotIndex_rank n (q : Qc) :
  (0 < n)%nat -> (0 <= q)%Qc -> (q <= 1)%Qc ->
  hotspotIndex n (Fin q) = ofZ (Z.of_nat (rank n q)) /\ (rank n q < n)%nat.
Proof.
  intros Hn H0 H1. pose proof (rank_bounds n q Hn H0 H1) as [Hlo Hhi].
  unfold rank. split; [|lia].
  rewrite Z2Nat.id by exact Hlo.
  unfold hotspotIndex, num_ceil, num_mul, ofZ. do 3 f_equal.
  apply Qceiling_comp. simpl. rewrite Qred_correct.
  apply Qmult_comp; [apply Qred_correct | reflexivity].
Qed.

(** ** Automatic bounds *)





(** ** Per-spot intensity *)

Lemma _updateIntensities_spots w spots :
  _spots w = Some spots ->
  _spots (_updateIntensities w) =
  Some (imap (fun i s => Spot.set_intensity (intensityAt w i) s) spots).
Proof. intros H. unfold _updateIntensities. rewrite H. reflexivity. Qed.


Lemma _updateIntensities_no_spots w :
  _spots w = None -> _updateIntensities w = w.
Proof. intros H. unfold _updateIntensities. by rewrite H. Qed.



(** ** Division guard *)





(** ** No measure selected *)


(** C3: with [null] as the active measure the loop compares [null],
    which counts as zero, against the bounds.  In a workspace whose
    measures were just loaded the bounds are both zero and every spot
    gets the intensity one; with bounds -1 and 1 every spot gets one
    half.  The spots are marked as without data only when both bounds
    are above zero. *)
Theorem C3_null_measure_is_compared_as_zero :
  _activeMeasure loaded = JNull
  /\ _minValue loaded = Num (Fin 0) /\ _maxValue loaded = Num (Fin 0)
  /\ (Spot.intensity <$> default [] (_spots (_updateIntensities loaded)))
     = replicate 5 (Num (Fin 1))
  /\ (exists w,
        set_scaleId sample_log10 "log" loaded = Ok w
        /\ (Spot.intensity <$> default [] (_spots w)) = replicate 5 (Num (Fin 1)))
  /\ (let w := set_maxValue (Num (ofZ 1))
                 (set_minValue (Num (ofZ (-1))) (with_autoMinMax false loaded)) in
      (Spot.intensity <$> default [] (_spots w)) = replicate 5 (Num oneHalf))
  /\ (let w := set_maxValue (Num (ofZ 3))
                 (set_minValue (Num (ofZ 1)) (with_autoMinMax false loaded)) in
      (Spot.intensity <$> default [] (_spots w)) = replicate 5 (Num NaN)).
Proof.
  repeat split; try (vm_compute; reflexivity).
  eexists. split; vm_compute; reflexivity.
Qed.

(** ** Selecting a measure *)




(** ** Scale registry *)

Lemma getScaleById_eq log10 id :
  getScaleById log10 id =
  if String.eqb id "log" then Normal (LOG log10)
  else if String.eqb id "linear" then Normal LINEAR
  else Thrown ("Invalid scale id: " ++ id).
Proof.
  unfold getScaleById. cbn [Scales firstScaleWithId LOG LINEAR Scale.id].
  rewrite (String.eqb_sym "log" id), (String.eqb_sym "linear" id).
  destruct (String.eqb id "log"); [done|].
  by destruct (String.eqb id "linear").
Qed.

(** C4, as the code has it: the two scales are registered under the
    ids "log" and "linear"; lookup succeeds on these two ids and throws
    on every other one. *)
Theorem C4_scale_lookup log10 :
  (snd <$> Scales log10) = [LOG log10; LINEAR]
  /\ Scale.id (LOG log10) = "log" /\ Scale.id LINEAR = "linear"
  /\ (forall id,
        getScaleById log10 id =
        if String.eqb id "log" then Normal (LOG log10)
        else if String.eqb id "linear" then Normal LINEAR
        else Thrown ("Invalid scale id: " ++ id))
  /\ (forall v, Scale.function LINEAR v = v)
  /\ (forall x, Scale.filter LINEAR (Num x) = true <-> finite x)
  /\ (forall x, Scale.function (LOG log10) (Num x) = Num (log10 x))
  /\ (forall x, Scale.filter (LOG log10) (Num x) = true
                <-> exists q, x = Fin q /\ (0 < q)%Qc).
Proof.
  repeat split; try done.
  - apply getScaleById_eq.
  - by apply LINEAR_filter_spec.
  - by apply LINEAR_filter_spec.
  - by apply LOG_filter_spec.
  - by apply LOG_filter_spec.
Qed.

(** C4 as stated fails: the id "log10" is not registered, and "log",
    an id other than "linear" and "log10", is. *)
Lemma C4_log10_is_not_an_id :
  getScaleById sample_log10 "log10" = Thrown "Invalid scale id: log10"
  /\ getScaleById sample_log10 "log" = Normal (LOG sample_log10).
Proof. split; reflexivity. Qed.

(** ** Colour map *)



(** ** Cancelling *)

Lemma removeTask_absent taskType w :
  _tasks w !! TaskType.key taskType = None -> removeTask taskType w = w.
Proof. intros H. unfold removeTask. by rewrite H. Qed.

Lemma removeTask_lookup taskType w :
  _tasks (removeTask taskType w) !! TaskType.key taskType = None.
Proof.
  unfold removeTask.
  destruct (_tasks w !! TaskType.key taskType) eqn:E; [|done].
  apply lookup_delete_eq.
Qed.

Lemma removeTask_settingsToLoad taskType w :
  _settingsToLoad (removeTask taskType w) = _settingsToLoad w.
Proof. unfold removeTask. by destruct (_tasks w !! TaskType.key taskType). Qed.

Lemma noTasks_false w : noTasks w = false <-> _tasks w <> ∅.
Proof. rewrite <- not_true_iff_false. by rewrite noTasks_empty. Qed.

Lemma drained_nothing_pending w :
  _settingsToLoad w = JNull -> drained w = w.
Proof. intros H. unfold drained. rewrite H. by rewrite andb_false_r. Qed.

Lemma drained_busy w : _tasks w <> ∅ -> drained w = w.
Proof. intros H. apply noTasks_false in H. unfold drained. by rewrite H. Qed.

(** What a started settings load leaves behind. *)
Lemma drained_starts w :
  _tasks w = ∅ -> _settingsToLoad w <> JNull ->
  _tasks (drained w)
  = {[ "load-settings" := Task.mk (workers w) "" (FirstBlob (_settingsToLoad w)) ]}
  /\ _settingsToLoad (drained w) = JNull
  /\ workers (drained w) = S (workers w)
  /\ published (drained w) = published w
  /\ posted (drained w) = posted w.
Proof.
  intros He Hp. unfold drained.
  rewrite (proj2 (noTasks_empty w) He).
  destruct (_settingsToLoad w) eqn:E; [done| |]; simpl; rewrite He; done.
Qed.

Lemma drained_published w : published (drained w) = published w.
Proof.
  unfold drained. destruct (noTasks w && _); [|done].
  unfold startWorker. done.
Qed.

Lemma drained_tasks_empty w :
  _tasks (drained w) = ∅ -> drained w = w /\ (_tasks w = ∅ -> _settingsToLoad w = JNull).
Proof.
  intros H. destruct (decide (_tasks w = ∅)) as [He|Hne].
  - destruct (_settingsToLoad w) eqn:Ep.
    + split; [by apply drained_nothing_pending | done].
    + destruct (drained_starts w He) as (Ht & _); [by rewrite Ep|].
      rewrite Ht in H. by apply map_non_empty_singleton in H.
    + destruct (drained_starts w He) as (Ht & _); [by rewrite Ep|].
      rewrite Ht in H. by apply map_non_empty_singleton in H.
  - split; [by apply drained_busy | done].
Qed.

Lemma removeTask_published taskType w :
  published (removeTask taskType w) = published w.
Proof. unfold removeTask. by destruct (_tasks w !! TaskType.key taskType). Qed.

Lemma removeTask_tasks taskType w :
  _tasks (removeTask taskType w) = delete (TaskType.key taskType) (_tasks w).
Proof.
  unfold removeTask. destruct (_tasks w !! TaskType.key taskType) eqn:E; [done|].
  simpl. symmetry. by apply delete_id.
Qed.

Lemma removeTask_workers taskType w :
  workers (removeTask taskType w) = workers w.
Proof. unfold removeTask. by destruct (_tasks w !! TaskType.key taskType). Qed.

(** The events one cancel publishes. *)
Lemma _cancelTask_published taskType w :
  published (_cancelTask taskType w)
  = (published w ++ if noTasks (removeTask taskType w) then [NO_TASKS] else [])%list.
Proof.
  rewrite _cancelTask_eq. cbv zeta.
  destruct (noTasks (removeTask taskType w)).
  - rewrite drained_published. simpl. by rewrite removeTask_published.
  - by rewrite removeTask_published, app_nil_r.
Qed.

(** C5, as the code has it.  A cancel terminates and forgets the
    running task of its kind and publishes no-tasks whenever the set of
    running tasks is empty after that, also when the set was empty
    before.  A second cancel in a row publishes no-tasks once more if
    the set is empty, and otherwise changes nothing, unless the first
    cancel started the pending settings load and the kind cancelled is
    the settings load itself. *)
Theorem C5_cancel_twice w taskType :
  let once := _cancelTask taskType w in
  (delete (TaskType.key taskType) (_tasks w) = ∅ ->
   published once = (published w ++ [NO_TASKS])%list)
  /\ (delete (TaskType.key taskType) (_tasks w) <> ∅ ->
      published once = published w
      /\ _tasks once = delete (TaskType.key taskType) (_tasks w))
  /\ (forall task,
        _tasks w !! TaskType.key taskType = Some task ->
        terminated once = (terminated w ++ [Task.worker task])%list)
  /\ (_tasks once = ∅ ->
      _cancelTask taskType once = publish NO_TASKS once)
  /\ (_tasks once <> ∅ ->
      TaskType.key taskType <> "load-settings" \/ _settingsToLoad w = JNull ->
      _cancelTask taskType once = once).
Proof.
  intros once. subst once.
  split; [|split].
  { intros He. rewrite _cancelTask_published.
    rewrite <- removeTask_tasks in He. by rewrite (proj2 (noTasks_empty _) He). }
  { intros Hne. rewrite _cancelTask_published, _cancelTask_eq. cbv zeta.
    rewrite <- removeTask_tasks in Hne.
    rewrite (proj2 (noTasks_false _) Hne), app_nil_r.
    by rewrite removeTask_tasks. }
  rewrite _cancelTask_eq. cbv zeta.
  split; [|split].
  - intros task Ht.
    assert (Hterm : terminated (removeTask taskType w)
                    = (terminated w ++ [Task.worker task])%list).
    { unfold removeTask. by rewrite Ht. }
    destruct (noTasks (removeTask taskType w)); [|done].
    rewrite <- Hterm. unfold drained.
    destruct (noTasks _ && _); [|done]. unfold startWorker. done.
  - destruct (noTasks (removeTask taskType w)) eqn:En.
    + intros He. apply drained_tasks_empty in He as [Hd Hp]. rewrite Hd.
      set (w1 := publish NO_TASKS (removeTask taskType w)) in *.
      assert (Hw1 : _tasks w1 = ∅) by (by apply noTasks_empty in En).
      rewrite _cancelTask_eq. cbv zeta.
      rewrite removeTask_absent by (rewrite Hw1; apply lookup_empty).
      rewrite (proj2 (noTasks_empty w1) Hw1).
      apply drained_nothing_pending. exact (Hp Hw1).
    + intros He. apply noTasks_empty in He. congruence.
  - destruct (noTasks (removeTask taskType w)) eqn:En.
    + intros Hne Hor.
      set (w1 := publish NO_TASKS (removeTask taskType w)) in *.
      assert (Hw1 : _tasks w1 = ∅) by (by apply noTasks_empty in En).
      assert (Hp : _settingsToLoad w1 <> JNull).
      { intros Hp. rewrite (drained_nothing_pending w1 Hp) in Hne. done. }
      destruct Hor as [Hkey | Hnull].
      * destruct (drained_starts w1 Hw1 Hp) as (Ht & _).
        assert (Habs : _tasks (drained w1) !! TaskType.key taskType = None).
        { rewrite Ht. by apply lookup_singleton_ne. }
        rewrite _cancelTask_eq. cbv zeta. rewrite (removeTask_absent _ _ Habs).
        by rewrite (proj2 (noTasks_false _) Hne).
      * exfalso. apply Hp. subst w1. simpl.
        by rewrite removeTask_settingsToLoad.
    + intros Hne _. rewrite _cancelTask_eq. cbv zeta.
      rewrite (removeTask_absent _ _ (removeTask_lookup taskType w)).
      by rewrite En.
Qed.

(** C5 as stated fails: on a new workspace, whose task set is empty, a
    cancel publishes no-tasks, and a second cancel publishes it
    again. *)
Lemma C5_cancel_on_empty_set_publishes :
  _tasks newWorkspace = ∅
  /\ published newWorkspace = []
  /\ published (_cancelTask LOAD_IMAGE newWorkspace) = [NO_TASKS]
  /\ published (_cancelTask LOAD_IMAGE (_cancelTask LOAD_IMAGE newWorkspace))
     = [NO_TASKS; NO_TASKS].
Proof. repeat split; vm_compute; reflexivity. Qed.

(** ** Settings *)

Lemma _cancelTask_loadedSettings taskType w :
  _loadedSettings (_cancelTask taskType w) = _loadedSettings w.
Proof.
  rewrite _cancelTask_eq. cbv zeta.
  assert (H : _loadedSettings (removeTask taskType w) = _loadedSettings w).
  { unfold removeTask. by destruct (_tasks w !! TaskType.key taskType). }
  destruct (noTasks (removeTask taskType w)); [|done].
  unfold drained. destruct (noTasks _ && _); [|done].
  unfold startWorker. done.
Qed.


(** ** Mode *)

Lemma Mode_eqb_eq a b : Mode_eqb a b = true <-> a = b.
Proof. destruct a, b; simpl; intuition congruence. Qed.

Lemma Mode_eqb_neq a b : Mode_eqb a b = false <-> a <> b.
Proof. rewrite <- not_true_iff_false. by rewrite Mode_eqb_eq. Qed.

(** A cancel leaves the mode, the scenes and the data alone. *)
Lemma _cancelTask_frame taskType w :
  let w' := _cancelTask taskType w in
  _mode w' = _mode w /\ _scene2d w' = _scene2d w /\ _scene3d w' = _scene3d w
  /\ _currentScene w' = _currentScene w /\ sameData w w'.
Proof.
  cbv zeta. rewrite _cancelTask_eq. cbv zeta.
  assert (H : forall v, removeTask taskType w = v ->
              _mode v = _mode w /\ _scene2d v = _scene2d w
              /\ _scene3d v = _scene3d w /\ _currentScene v = _currentScene w
              /\ sameData w v).
  { intros v <-. unfold removeTask, sameData.
    by destruct (_tasks w !! TaskType.key taskType). }
  destruct (H _ eq_refl) as (H1 & H2 & H3 & H4 & H5).
  destruct (noTasks (removeTask taskType w)); [|done].
  unfold drained. destruct (noTasks _ && _); [|done].
  unfold sameData in *. unfold startWorker. simpl. done.
Qed.

Lemma _cancelTask_lookup taskType w key :
  key <> "load-settings" ->
  _tasks (_cancelTask taskType w) !! key
  = delete (TaskType.key taskType) (_tasks w) !! key.
Proof.
  intros Hkey. rewrite _cancelTask_eq. cbv zeta. rewrite <- removeTask_tasks.
  destruct (noTasks (removeTask taskType w)) eqn:En; [|done].
  set (w1 := publish NO_TASKS (removeTask taskType w)).
  assert (He : _tasks w1 = ∅) by (by apply noTasks_empty in En).
  change (_tasks (removeTask taskType w)) with (_tasks w1). rewrite He.
  destruct (_settingsToLoad w1) eqn:Ep.
  - by rewrite (drained_nothing_pending w1 Ep), He.
  - destruct (drained_starts w1 He) as (-> & _); [by rewrite Ep|].
    rewrite lookup_empty. by apply lookup_singleton_ne.
  - destruct (drained_starts w1 He) as (-> & _); [by rewrite Ep|].
    rewrite lookup_empty. by apply lookup_singleton_ne.
Qed.

Lemma Scene2D_cleared_id s :
  Scene2D.image s = None -> Scene2D.spots s = None ->
  Scene2D.set_spots None (Scene2D.resetImage s) = s.
Proof. destruct s. simpl. by intros -> ->. Qed.

Lemma Scene3D_cleared_id s :
  Scene3D.geometry s = None -> Scene3D.spots s = None ->
  Scene3D.set_spots None (Scene3D.set_geometry None s) = s.
Proof. destruct s. simpl. by intros -> ->. Qed.

Arguments _cancelTask : simpl never.
Arguments _notify : simpl never.

(** The state after a switch to the 2D mode, to the 3D mode and to the
    undefined mode. *)
Lemma set_mode_2D w :
  _mode w <> MODE_2D ->
  set_mode MODE_2D w =
  publish MODE_CHANGE
    (_cancelTask LOAD_MESH
       (with_scene3d
          (Scene3D.set_spots None (Scene3D.set_geometry None (_scene3d w)))
          (with_currentScene (Some TheScene2D)
             (with_scene2d (Scene2D.set_spots (_spots w) (_scene2d w))
                (with_mode MODE_2D w))))).
Proof.
  intros H. apply Mode_eqb_neq in H. unfold set_mode. rewrite H.
  by rewrite _notify_eq.
Qed.

Lemma set_mode_3D w :
  _mode w <> MODE_3D ->
  set_mode MODE_3D w =
  publish MODE_CHANGE
    (let w1 := _cancelTask LOAD_IMAGE
                 (with_scene2d
                    (Scene2D.set_spots None (Scene2D.resetImage (_scene2d w)))
                    (with_mode MODE_3D w)) in
     with_currentScene (Some TheScene3D)
       (with_scene3d (Scene3D.set_spots (_spots w1) (_scene3d w1)) w1)).
Proof.
  intros H. apply Mode_eqb_neq in H. unfold set_mode. rewrite H.
  rewrite _notify_eq. cbv zeta. cbn [with_mode _mode Mode_eqb].
  set (c := _cancelTask LOAD_IMAGE _).
  assert (Hm : _mode c = MODE_3D) by (subst c; apply _cancelTask_frame).
  rewrite Hm. reflexivity.
Qed.

Lemma set_mode_UNDEFINED w :
  _mode w <> UNDEFINED ->
  set_mode UNDEFINED w =
  publish MODE_CHANGE
    (let w1 := _cancelTask LOAD_IMAGE
                 (with_scene2d
                    (Scene2D.set_spots None (Scene2D.resetImage (_scene2d w)))
                    (with_mode UNDEFINED w)) in
     _cancelTask LOAD_MESH
       (with_scene3d
          (Scene3D.set_spots None (Scene3D.set_geometry None (_scene3d w1)))
          w1)).
Proof.
  intros H. apply Mode_eqb_neq in H. unfold set_mode. rewrite H.
  rewrite _notify_eq. cbv zeta. cbn [with_mode _mode Mode_eqb].
  set (c := _cancelTask LOAD_IMAGE _).
  assert (Hm : _mode c = UNDEFINED) by (subst c; apply _cancelTask_frame).
  rewrite Hm. reflexivity.
Qed.

Lemma _cancelTask_terminated taskType w :
  terminated (_cancelTask taskType w)
  = (terminated w
     ++ match _tasks w !! TaskType.key taskType with
        | Some task => [Task.worker task]
        | None => []
        end)%list.
Proof.
  rewrite _cancelTask_eq. cbv zeta.
  assert (H : terminated (removeTask taskType w)
              = (terminated w
                 ++ match _tasks w !! TaskType.key taskType with
                    | Some task => [Task.worker task]
                    | None => []
                    end)%list).
  { unfold removeTask. destruct (_tasks w !! TaskType.key taskType); [done|].
    by rewrite app_nil_r. }
  destruct (noTasks (removeTask taskType w)); [|done].
  rewrite <- H. unfold drained. destruct (noTasks _ && _); [|done].
  unfold startWorker. done.
Qed.

Lemma no_tasks_events (b : bool) :
  Forall (fun e => e = NO_TASKS) (if b then [NO_TASKS] else []).
Proof. destruct b; repeat constructor. Qed.

Ltac cancel_facts c :=
  let Hm := fresh "Hm" in
  let H2 := fresh "H2d" in
  let H3 := fresh "H3d" in
  let Hc := fresh "Hcur" in
  let Hd := fresh "Hdata" in
  match eval unfold c in c with
  | _cancelTask ?k ?x =>
      destruct (_cancelTask_frame k x) as (Hm & H2 & H3 & Hc & Hd);
      fold c in Hm, H2, H3, Hc, Hd;
      unfold sameData in Hd; cbn in Hm, H2, H3, Hc, Hd
  end.

Lemma _cancelTask_lookup_self taskType w :
  TaskType.key taskType <> "load-settings" ->
  _tasks (_cancelTask taskType w) !! TaskType.key taskType = None.
Proof. intros H. rewrite _cancelTask_lookup by done. apply lookup_delete_eq. Qed.

Lemma _cancelTask_lookup_other taskType w key :
  key <> "load-settings" -> key <> TaskType.key taskType ->
  _tasks (_cancelTask taskType w) !! key = _tasks w !! key.
Proof.
  intros H1 H2. rewrite _cancelTask_lookup by done. by apply lookup_delete_ne.
Qed.

Lemma _cancelTask_terminates taskType w task :
  _tasks w !! TaskType.key taskType = Some task ->
  In (Task.worker task) (terminated (_cancelTask taskType w)).
Proof.
  intros H. rewrite _cancelTask_terminated, H. apply in_or_app. right. by left.
Qed.

Lemma _cancelTask_terminated_mono taskType w x :
  In x (terminated w) -> In x (terminated (_cancelTask taskType w)).
Proof.
  intros H. rewrite _cancelTask_terminated. apply in_or_app. by left.
Qed.

(** C7: switching the mode.  Assigning the current mode changes
    nothing.  Any other assignment clears what the modes other than the
    new one own and cancels their load, hands the spots of the
    workspace to the scene of the new mode, touches nothing else of the
    scenes or the data, and publishes mode-change once, as its last
    step; the only events before it are the no-tasks signals of the
    cancels. *)
Theorem C7_mode_switch :
  (forall w, set_mode (_mode w) w = w)
  /\ (forall w value,
        _mode w <> value ->
        let w' := set_mode value w in
        _mode w' = value
        /\ (value <> MODE_2D ->
            cleared2D w'
            /\ forall task,
                 _tasks w !! "load-image" = Some task ->
                 In (Task.worker task) (terminated w'))
        /\ (value <> MODE_3D ->
            cleared3D w'
            /\ forall task,
                 _tasks w !! "load-mesh" = Some task ->
                 In (Task.worker task) (terminated w'))
        /\ (value = MODE_2D ->
            Scene2D.spots (_scene2d w') = _spots w
            /\ Scene2D.image (_scene2d w') = Scene2D.image (_scene2d w)
            /\ _currentScene w' = Some TheScene2D)
        /\ (value = MODE_3D ->
            Scene3D.spots (_scene3d w') = _spots w
            /\ Scene3D.geometry (_scene3d w') = Scene3D.geometry (_scene3d w)
            /\ _currentScene w' = Some TheScene3D)
        /\ (_mode w <> MODE_2D -> value <> MODE_2D -> cleared2D w ->
            _scene2d w' = _scene2d w)
        /\ (_mode w <> MODE_3D -> value <> MODE_3D -> cleared3D w ->
            _scene3d w' = _scene3d w)
        /\ sameData w w'
        /\ (exists before,
              published w' = (published w ++ before ++ [MODE_CHANGE])%list
              /\ Forall (fun e => e = NO_TASKS) before)
        /\ exists final, w' = publish MODE_CHANGE final).
Proof.
  split.
  - intros w. unfold set_mode.
    by rewrite (proj2 (Mode_eqb_eq (_mode w) (_mode w)) eq_refl).
  - intros w value Hne w'. subst w'. destruct value.
    + (* to the undefined mode *)
      rewrite (set_mode_UNDEFINED w Hne). cbv zeta.
      set (x1 := with_scene2d _ _).
      set (c1 := _cancelTask LOAD_IMAGE x1).
      set (x2 := with_scene3d _ c1).
      set (c2 := _cancelTask LOAD_MESH x2).
      cancel_facts c1. cancel_facts c2.
      split; [simpl; congruence|].
      split.
      { intros _. split.
        - unfold cleared2D. simpl. rewrite H2d0, H2d. repeat split.
          subst c2. rewrite _cancelTask_lookup_other by done.
          subst x2 c1. simpl. by apply _cancelTask_lookup_self.
        - intros task Ht. simpl. subst c2. apply _cancelTask_terminated_mono.
          subst x2. simpl. subst c1. by apply _cancelTask_terminates. }
      split.
      { intros _. split.
        - unfold cleared3D. simpl. rewrite H3d0. repeat split.
          subst c2. by apply _cancelTask_lookup_self.
        - intros task Ht. simpl. subst c2. apply _cancelTask_terminates.
          subst x2 c1. simpl. by rewrite _cancelTask_lookup_other. }
      split; [done|]. split; [done|].
      split.
      { intros _ _ (Hi & Hs & _). simpl. rewrite H2d0, H2d.
        by apply Scene2D_cleared_id. }
      split.
      { intros _ _ (Hg & Hs & _). simpl. rewrite H3d0, H3d.
        by apply Scene3D_cleared_id. }
      split.
      { unfold sameData. simpl. intuition congruence. }
      split; [|by eexists].
      exists ((if noTasks (removeTask LOAD_IMAGE x1) then [NO_TASKS] else [])
              ++ (if noTasks (removeTask LOAD_MESH x2) then [NO_TASKS] else []))%list.
      split.
      * simpl. subst c2. rewrite _cancelTask_published. subst x2. simpl.
        subst c1. rewrite _cancelTask_published. subst x1. simpl.
        by rewrite <- !app_assoc.
      * apply Forall_app. split; apply no_tasks_events.
    + (* to the 2D mode *)
      rewrite (set_mode_2D w Hne).
      set (x := with_scene3d _ _).
      set (c := _cancelTask LOAD_MESH x).
      cancel_facts c.
      split; [simpl; congruence|].
      split; [done|].
      split.
      { intros _. split.
        - unfold cleared3D. simpl. rewrite H3d. repeat split.
          subst c. by apply _cancelTask_lookup_self.
        - intros task Ht. simpl. subst c. by apply _cancelTask_terminates. }
      split.
      { intros _. simpl. rewrite H2d, Hcur. done. }
      split; [done|]. split; [done|].
      split.
      { intros _ _ (Hg & Hs & _). simpl. rewrite H3d.
        by apply Scene3D_cleared_id. }
      split.
      { unfold sameData. simpl. intuition congruence. }
      split; [|by eexists].
      exists (if noTasks (removeTask LOAD_MESH x) then [NO_TASKS] else []).
      split.
      * simpl. subst c. rewrite _cancelTask_published. subst x. simpl.
        by rewrite <- !app_assoc.
      * apply no_tasks_events.
    + (* to the 3D mode *)
      rewrite (set_mode_3D w Hne). cbv zeta.
      set (x := with_scene2d _ _).
      set (c := _cancelTask LOAD_IMAGE x).
      cancel_facts c.
      split; [simpl; congruence|].
      split.
      { intros _. split.
        - unfold cleared2D. simpl. rewrite H2d. repeat split.
          subst c. by apply _cancelTask_lookup_self.
        - intros task Ht. simpl. subst c. by apply _cancelTask_terminates. }
      split; [done|]. split; [done|].
      split.
      { intros _. simpl. rewrite H3d. destruct Hdata as (-> & _). done. }
      split.
      { intros _ _ (Hi & Hs & _). simpl. rewrite H2d.
        by apply Scene2D_cleared_id. }
      split; [done|].
      split.
      { unfold sameData. simpl. intuition congruence. }
      split; [|by eexists].
      exists (if noTasks (removeTask LOAD_IMAGE x) then [NO_TASKS] else []).
      split.
      * simpl. subst c. rewrite _cancelTask_published. subst x. simpl.
        by rewrite <- !app_assoc.
      * apply no_tasks_events.
Qed.

(** ** Per-spot properties *)













(** * The statements at sample inputs *)



Lemma C4_witness :
  finite (ofZ 2) /\ Scale.filter LINEAR (Num (ofZ 2)) = true.
Proof.
  split; [exact I|].
  apply (proj1 (proj2 (proj2 (proj2 (proj2 (proj2 (C4_scale_lookup sample_log10))))))).
  exact I.
Defined.

Lemma C5_witness :
  _tasks (_cancelTask LOAD_IMAGE imageLoading) = ∅
  /\ _cancelTask LOAD_IMAGE (_cancelTask LOAD_IMAGE imageLoading)
     = publish NO_TASKS (_cancelTask LOAD_IMAGE imageLoading).
Proof.
  assert (H : _tasks (_cancelTask LOAD_IMAGE imageLoading) = ∅)
    by (vm_compute; reflexivity).
  split; [exact H|].
  exact (proj1 (proj2 (proj2 (proj2 (C5_cancel_twice imageLoading LOAD_IMAGE)))) H).
Defined.


Lemma C7_witness :
  _mode loaded <> MODE_2D
  /\ _mode (set_mode MODE_2D loaded) = MODE_2D
  /\ Scene2D.spots (_scene2d (set_mode MODE_2D loaded)) = _spots loaded.
Proof.
  assert (H : _mode loaded <> MODE_2D).
  { intros E. vm_compute in E. discriminate. }
  split; [exact H|].
  destruct (proj2 C7_mode_switch loaded MODE_2D H) as (Hm & _ & _ & Hin & _).
  exact (conj Hm (proj1 (Hin eq_refl))).
Defined.




(** * Further properties *)

(** ** Range of the intensity *)

Lemma Qcinv_pos (x : Qc) : (0 < x)%Qc -> (0 < / x)%Qc.
Proof.
  unfold Qclt, Qcinv. cbn [this Q2Qc]. rewrite !Qred_correct.
  apply Qinv_lt_0_compat.
Qed.

Lemma Qc_ratio_in_unit (s lo hi : Qc) :
  (lo <= s)%Qc -> (s < hi)%Qc ->
  (0 <= (s - lo) / (hi - lo))%Qc /\ ((s - lo) / (hi - lo) <= 1)%Qc.
Proof.
  intros H1 H2.
  assert (Hd : (0 < hi - lo)%Qc).
  { unfold Qcminus. apply (proj1 (Qclt_minus_iff lo hi)).
    eapply Qcle_lt_trans; eassumption. }
  assert (Hn : (0 <= s - lo)%Qc).
  { unfold Qcminus. apply (proj1 (Qcle_minus_iff lo s)). exact H1. }
  assert (Hle : (s - lo <= hi - lo)%Qc).
  { unfold Qcminus. apply Qcplus_le_compat; [|apply Qcle_refl].
    by apply Qclt_le_weak. }
  assert (Hi : (0 < / (hi - lo))%Qc) by (by apply Qcinv_pos).
  unfold Qcdiv. split.
  - rewrite <- (Qcmult_0_l (/ (hi - lo))).
    apply Qcmult_le_compat_r; [exact Hn | by apply Qclt_le_weak].
  - rewrite <- (Qcmult_inv_r (hi - lo)).
    + apply Qcmult_le_compat_r; [exact Hle | by apply Qclt_le_weak].
    + intros E. rewrite E in Hd. by apply Qclt_not_eq in Hd.
Qed.

Lemma inUnit_0 : inUnit (Fin 0).
Proof. exists 0%Qc. repeat split; unfold Qcle, Qle; simpl; lia. Qed.

Lemma inUnit_1 : inUnit (Fin 1).
Proof. exists 1%Qc. repeat split; unfold Qcle, Qle; simpl; lia. Qed.

Lemma intensity_value_range (s hi lo : num) :
  let r := if num_geb s hi then Fin 1
           else if num_geb s lo then num_div (num_sub s lo) (num_sub hi lo)
           else NaN in
  r = NaN \/ inUnit r.
Proof.
  cbv zeta. destruct (num_geb s hi) eqn:Ehi.
  { right. apply inUnit_1. }
  destruct (num_geb s lo) eqn:Elo; [|by left].
  destruct s as [| |s|], lo as [| |lo|]; cbn [num_geb num_ltb negb] in Elo;
    try discriminate; destruct hi as [| |hi|];
    cbn [num_geb num_ltb negb] in Ehi; try discriminate;
    cbn [num_sub num_div]; try (by left); try (right; apply inUnit_0).
  apply negb_false_iff, Qcltb_lt in Ehi. apply negb_true_iff, Qcltb_ge in Elo.
  destruct (Qc_ratio_in_unit s lo hi Elo Ehi) as [H0 H1].
  assert (Hz : Qceqb (hi - lo) 0 = false).
  { apply not_true_iff_false. rewrite Qceqb_eq. intros E.
    assert (Hlt : (lo < hi)%Qc) by (eapply Qcle_lt_trans; eassumption).
    apply Qclt_minus_iff in Hlt. unfold Qcminus in E. rewrite E in Hlt.
    by apply Qclt_not_eq in Hlt. }
  rewrite Hz. right. eexists. repeat split; eassumption.
Qed.

Lemma intensityAt_range w i :
  exists x, intensityAt w i = Num x /\ (x = NaN \/ inUnit x).
Proof.
  pose proof (intensity_value_range (ToNumber (scaledValue w i))
                (ToNumber (_maxValue w)) (ToNumber (_minValue w))) as H.
  cbv zeta in H. unfold intensityAt, js_ge, js_div, js_sub.
  destruct (num_geb (ToNumber (scaledValue w i)) (ToNumber (_maxValue w)));
    [by eexists|].
  destruct (num_geb (ToNumber (scaledValue w i)) (ToNumber (_minValue w)));
    by eexists.
Qed.

(** X1: after the intensities are recomputed, the intensity of every
    spot is NaN or a number between 0 and 1, whatever the bounds, the
    scale and the measure are. *)
Theorem X1_intensity_is_NaN_or_in_unit w :
  Forall (fun spot =>
            exists x, Spot.intensity spot = Num x /\ (x = NaN \/ inUnit x))
         (default [] (_spots (_updateIntensities w)))
  /\ length (default [] (_spots (_updateIntensities w)))
     = length (default [] (_spots w)).
Proof.
  destruct (_spots w) as [spots|] eqn:E.
  - rewrite (_updateIntensities_spots w spots E). simpl. split.
    + apply Forall_lookup. intros i s Hs.
      rewrite list_lookup_imap in Hs.
      destruct (spots !! i); [|done]. injection Hs as <-.
      apply intensityAt_range.
    + apply length_imap.
  - rewrite (_updateIntensities_no_spots w E), E. split; [constructor|done].
Qed.

(** ** Recomputing the bounds twice *)

Lemma _updateMinMaxValues_autoBounds w :
  _updateMinMaxValues w =
  if js_neq (_minValue w) (fst (autoBounds w))
     || js_neq (_maxValue w) (snd (autoBounds w))
  then (true,
        publish MAPPING_CHANGE
          (publish AUTO_MAPPING_CHANGE
             (with_maxValue (snd (autoBounds w))
                (with_minValue (fst (autoBounds w)) w))))
  else (false, w).
Proof.
  unfold _updateMinMaxValues, autoBounds. cbv zeta. cbn [fst snd].
  destruct (js_neq _ _ || js_neq _ _); [|done].
  by rewrite !_notify_eq.
Qed.

Lemma autoBounds_ext w w' :
  _activeMeasure w' = _activeMeasure w -> _scale w' = _scale w ->
  _hotspotQuantile w' = _hotspotQuantile w ->
  autoBounds w' = autoBounds w.
Proof.
  intros Ha Hs Hq. unfold autoBounds, sortedValues. by rewrite Ha, Hs, Hq.
Qed.

Lemma array_get_cases l k :
  array_get l k = Undef \/ exists x, x ∈ l /\ array_get l k = Num x.
Proof.
  unfold array_get. destruct k as [| |q|]; try by left.
  destruct ((Qden q =? 1)%positive && (0 <=? Qnum q)%Z); [|by left].
  destruct (l !! Z.to_nat (Qnum q)) as [x|] eqn:E; [|by left].
  right. exists x. split; [|done]. by eapply list_elem_of_lookup_2.
Qed.

Lemma js_eq_refl_finite x : finite x -> js_eq (Num x) (Num x) = true.
Proof. destruct x; try done. intros _. simpl. by apply Qceqb_eq. Qed.

Lemma sortedValues_finite_LINEAR w x :
  _scale w = LINEAR -> x ∈ sortedValues w -> finite x.
Proof.
  intros Hs Hx. unfold sortedValues in Hx. rewrite sort_perm in Hx.
  apply list_elem_of_In, filter_In in Hx as [_ Hx]. rewrite Hs in Hx.
  by apply LINEAR_filter_spec.
Qed.

Lemma autoBounds_self_equal w :
  _scale w = LINEAR ->
  js_eq (fst (autoBounds w)) (fst (autoBounds w)) = true
  /\ js_eq (snd (autoBounds w)) (snd (autoBounds w)) = true.
Proof.
  intros Hs. unfold autoBounds. cbv zeta. cbn [fst snd]. rewrite Hs.
  cbn [Scale.function LINEAR].
  destruct (Nat.ltb 0 (length (sortedValues w))); [|done].
  split.
  - destruct (array_get_cases (sortedValues w) (Fin 0)) as [-> | (x & Hx & ->)];
      [done|]. apply js_eq_refl_finite. by eapply sortedValues_finite_LINEAR.
  - destruct (array_get_cases (sortedValues w)
                (hotspotIndex (length (sortedValues w)) (_hotspotQuantile w)))
      as [-> | (x & Hx & ->)]; [done|].
    apply js_eq_refl_finite. by eapply sortedValues_finite_LINEAR.
Qed.

(** X2: under the linear scale a second recomputation of the bounds
    reports no change and leaves the workspace, events included, as the
    first one left it. *)
Theorem X2_bounds_recomputation_settles w :
  _scale w = LINEAR ->
  _updateMinMaxValues (snd (_updateMinMaxValues w))
  = (false, snd (_updateMinMaxValues w)).
Proof.
  intros Hs. destruct (autoBounds_self_equal w Hs) as [H1 H2].
  rewrite (_updateMinMaxValues_autoBounds w).
  destruct (js_neq (_minValue w) (fst (autoBounds w))
            || js_neq (_maxValue w) (snd (autoBounds w))) eqn:E; cbn [snd].
  - set (w' := publish _ _).
    assert (Hb : autoBounds w' = autoBounds w) by (by apply autoBounds_ext).
    rewrite (_updateMinMaxValues_autoBounds w'), Hb.
    change (_minValue w') with (fst (autoBounds w)).
    change (_maxValue w') with (snd (autoBounds w)).
    unfold js_neq. by rewrite H1, H2.
  - rewrite (_updateMinMaxValues_autoBounds w). by rewrite E.
Qed.

(** ** Invariants of a history *)

Lemma hasSpots_false o : hasSpots o = false -> o = None.
Proof. by destruct o. Qed.

Lemma invariant_essence log10 w w' :
  essence w' = essence w -> invariant log10 w -> invariant log10 w'.
Proof.
  unfold essence, display. intros [= Ht Hp Hm Hc Hq Hs Hi2 Hs2 Hc2 Hg3 Hs3 Hc3].
  unfold invariant, idleMeansDrained, loadsMatchMode, scenesMatchMode,
    colorMapsAgree, quantileClamped, scaleRegistered.
  rewrite Ht, Hp, Hm, Hc, Hq, Hs, Hi2, Hc2, Hg3, Hc3.
  intros (H1 & H2 & (H3 & H4) & H5 & H6 & H7). repeat split; try tauto.
  - apply hasSpots_false. rewrite Hs2.
    destruct H3 as [_ E]; [assumption|]. by rewrite E.
  - apply hasSpots_false. rewrite Hs3.
    destruct H4 as [_ E]; [assumption|]. by rewrite E.
Qed.

Lemma essence_publish e w : essence (publish e w) = essence w.
Proof. reflexivity. Qed.

Lemma essence_notify e w : e <> NO_TASKS -> essence (_notify e w) = essence w.
Proof. intros H. rewrite _notify_eq. by destruct e. Qed.

Lemma essence__updateIntensities w : essence (_updateIntensities w) = essence w.
Proof. unfold _updateIntensities. by destruct (_spots w). Qed.

Lemma essence__updateMinMaxValues w :
  essence (snd (_updateMinMaxValues w)) = essence w.
Proof.
  rewrite _updateMinMaxValues_autoBounds. by destruct (js_neq _ _ || js_neq _ _).
Qed.

Lemma essence_updateBoundsThenIntensities w :
  essence (updateBoundsThenIntensities w) = essence w.
Proof.
  unfold updateBoundsThenIntensities.
  pose proof (essence__updateMinMaxValues w) as H.
  destruct (_updateMinMaxValues w) as [[] w']; cbn [snd] in H; [|done].
  by rewrite essence__updateIntensities.
Qed.

Lemma essence_selectMapByIndex index w :
  essence (selectMapByIndex index w) = essence w.
Proof.
  unfold selectMapByIndex. destruct (_measures w); [|done].
  rewrite essence__updateIntensities.
  destruct (_autoMinMax _); [|done]. by rewrite essence__updateMinMaxValues.
Qed.

Lemma essence_set_minValue value w : essence (set_minValue value w) = essence w.
Proof.
  unfold set_minValue. destruct (_autoMinMax w); [done|].
  rewrite essence_notify by done. by rewrite essence__updateIntensities.
Qed.

Lemma essence_set_maxValue value w : essence (set_maxValue value w) = essence w.
Proof.
  unfold set_maxValue. destruct (_autoMinMax w); [done|].
  rewrite essence_notify by done. by rewrite essence__updateIntensities.
Qed.

Lemma essence_set_autoMinMax value w :
  essence (set_autoMinMax value w) = essence w.
Proof.
  unfold set_autoMinMax. rewrite essence_notify by done.
  destruct (_autoMinMax _); [|done].
  by rewrite essence_updateBoundsThenIntensities.
Qed.

Lemma essence__setStatus status w : essence (_setStatus status w) = essence w.
Proof. unfold _setStatus. by rewrite essence_notify. Qed.

Lemma essence__addError message w : essence (_addError message w) = essence w.
Proof. unfold _addError. by rewrite essence_notify. Qed.

Lemma essence_clearErrors w : essence (clearErrors w) = essence w.
Proof. unfold clearErrors. by rewrite essence_notify. Qed.

Lemma essence_onerror w : essence (onerror w) = essence w.
Proof. unfold onerror. by rewrite essence__addError, essence__setStatus. Qed.

Lemma essence_settingsLoaded settings w :
  essence (settingsLoaded settings w) = essence w.
Proof. unfold settingsLoaded. by rewrite essence_notify. Qed.

Lemma _doTask_eq taskType args w :
  _doTask taskType args w =
  startWorker taskType args
    match _tasks w !! TaskType.key taskType with
    | Some _ => _cancelTask taskType w
    | None => w
    end.
Proof.
  unfold _doTask, depth. rewrite doTask_n_eq. cbn [default from_option id].
  destruct (_tasks w !! TaskType.key taskType); [|done].
  by rewrite _cancelTask_eq.
Qed.

Lemma display__cancelTask taskType w :
  display (_cancelTask taskType w) = display w.
Proof.
  destruct (_cancelTask_frame taskType w) as (Hm & H2 & H3 & _ & Hd).
  unfold sameData in Hd. destruct Hd as (_ & _ & _ & Hs & Hc & Hq & _).
  unfold display. by rewrite Hm, H2, H3, Hs, Hc, Hq.
Qed.

Lemma display_startWorker taskType args w :
  display (startWorker taskType args w) = display w.
Proof. unfold startWorker. by destruct (TaskType.worker taskType). Qed.

Lemma display__doTask taskType args w :
  display (_doTask taskType args w) = display w.
Proof.
  rewrite _doTask_eq, display_startWorker.
  destruct (_tasks w !! TaskType.key taskType); [|done].
  apply display__cancelTask.
Qed.

Lemma _tasks_startWorker taskType args w :
  _tasks (startWorker taskType args w)
  = <[TaskType.key taskType := Task.mk (workers w) "" args]> (_tasks w).
Proof. unfold startWorker. by destruct (TaskType.worker taskType). Qed.

Lemma idle__cancelTask taskType w : idleMeansDrained (_cancelTask taskType w).
Proof.
  unfold idleMeansDrained. rewrite _cancelTask_eq. cbv zeta.
  destruct (noTasks (removeTask taskType w)) eqn:En.
  - intros He. destruct (drained_tasks_empty _ He) as [E Hp].
    rewrite E. apply Hp. by apply noTasks_empty in En.
  - intros He. apply noTasks_false in En. done.
Qed.

Lemma idle__doTask taskType args w : idleMeansDrained (_doTask taskType args w).
Proof.
  unfold idleMeansDrained. rewrite _doTask_eq, _tasks_startWorker.
  intros He. by apply insert_non_empty in He.
Qed.

Lemma idle_loadSettings blob w : idleMeansDrained (loadSettings blob w).
Proof.
  unfold idleMeansDrained, loadSettings. rewrite _loadPendingSettings_eq.
  intros He. destruct (drained_tasks_empty _ He) as [E Hp].
  rewrite E in He |- *. by apply Hp.
Qed.

Lemma invariant_retask log10 w w' :
  display w' = display w -> idleMeansDrained w' -> loadsMatchMode w' ->
  invariant log10 w -> invariant log10 w'.
Proof.
  unfold display. intros [= Hm Hc Hq Hs Hi2 Hs2 Hc2 Hg3 Hs3 Hc3] Hidle Hloads.
  unfold invariant, scenesMatchMode, colorMapsAgree, quantileClamped,
    scaleRegistered.
  rewrite Hm, Hc, Hq, Hs, Hi2, Hc2, Hg3, Hc3.
  intros (_ & _ & (H3 & H4) & H5 & H6 & H7).
  split; [exact Hidle|]. split; [exact Hloads|]. repeat split; try tauto.
  - apply hasSpots_false. rewrite Hs2.
    destruct H3 as [_ E]; [assumption|]. by rewrite E.
  - apply hasSpots_false. rewrite Hs3.
    destruct H4 as [_ E]; [assumption|]. by rewrite E.
Qed.

Lemma _mode_display w w' : display w' = display w -> _mode w' = _mode w.
Proof. unfold display. by intros [= -> _]. Qed.

Lemma invariant__cancelTask log10 taskType w :
  invariant log10 w -> invariant log10 (_cancelTask taskType w).
Proof.
  intros H. apply (invariant_retask log10 w); [apply display__cancelTask
    | apply idle__cancelTask | | exact H].
  destruct H as (_ & [Hi Hm] & _). unfold loadsMatchMode.
  rewrite (_mode_display _ _ (display__cancelTask taskType w)).
  rewrite !_cancelTask_lookup by done.
  split; intros [t Ht]; [apply Hi | apply Hm];
    apply lookup_delete_Some in Ht as [_ Ht]; eauto.
Qed.

Lemma _doTask_lookup taskType args w key :
  key <> "load-settings" -> key <> TaskType.key taskType ->
  _tasks (_doTask taskType args w) !! key = _tasks w !! key.
Proof.
  intros H1 H2. rewrite _doTask_eq, _tasks_startWorker.
  rewrite lookup_insert_ne by done.
  destruct (_tasks w !! TaskType.key taskType); [|done].
  by apply _cancelTask_lookup_other.
Qed.

Lemma _doTask_lookup_self taskType args w :
  is_Some (_tasks (_doTask taskType args w) !! TaskType.key taskType).
Proof. rewrite _doTask_eq, _tasks_startWorker, lookup_insert_eq. eauto. Qed.

(** Starting a task keeps the invariants, provided an image load is
    started in the 2D mode and a mesh load in the 3D mode. *)
Lemma invariant__doTask log10 taskType args w :
  (TaskType.key taskType = "load-image" -> _mode w = MODE_2D) ->
  (TaskType.key taskType = "load-mesh" -> _mode w = MODE_3D) ->
  invariant log10 w -> invariant log10 (_doTask taskType args w).
Proof.
  intros Hki Hkm H.
  apply (invariant_retask log10 w); [apply display__doTask
    | apply idle__doTask | | exact H].
  destruct H as (_ & [Hi Hm] & _). unfold loadsMatchMode.
  rewrite (_mode_display _ _ (display__doTask taskType args w)).
  split; intros Hl.
  - destruct (decide ("load-image" = TaskType.key taskType)) as [E|E];
      [by apply Hki|].
    rewrite _doTask_lookup in Hl by done. by apply Hi.
  - destruct (decide ("load-mesh" = TaskType.key taskType)) as [E|E];
      [by apply Hkm|].
    rewrite _doTask_lookup in Hl by done. by apply Hm.
Qed.

Lemma idle_publish e w : idleMeansDrained w -> idleMeansDrained (publish e w).
Proof. done. Qed.

Lemma no_image_load_after_cancel w :
  _tasks (_cancelTask LOAD_IMAGE w) !! "load-image" = None.
Proof. by apply (_cancelTask_lookup_self LOAD_IMAGE). Qed.

Lemma no_mesh_load_after_cancel w :
  _tasks (_cancelTask LOAD_MESH w) !! "load-mesh" = None.
Proof. by apply (_cancelTask_lookup_self LOAD_MESH). Qed.

(** Assigning the mode keeps the invariants. *)
Lemma invariant_set_mode log10 value w :
  invariant log10 w ->
  invariant log10 (set_mode value w) /\ _mode (set_mode value w) = value.
Proof.
  intros Hinv. destruct (Mode_eqb (_mode w) value) eqn:E.
  { assert (set_mode value w = w) as ->;
      [by unfold set_mode; rewrite E | by apply Mode_eqb_eq in E]. }
  apply Mode_eqb_neq in E. rename E into Hne.
  destruct Hinv as (_ & _ & _ & [Hc2 Hc3] & Hq & Hs).
  destruct value.
  - rewrite (set_mode_UNDEFINED w Hne). cbv zeta.
    set (x1 := with_scene2d _ _).
    set (c1 := _cancelTask LOAD_IMAGE x1).
    set (x2 := with_scene3d _ c1).
    set (c2 := _cancelTask LOAD_MESH x2).
    cancel_facts c1. cancel_facts c2.
    destruct Hdata as (_ & _ & _ & Es & Ec & Eq & _).
    destruct Hdata0 as (_ & _ & _ & Es0 & Ec0 & Eq0 & _).
    split; [|simpl; congruence].
    split; [apply idle_publish, idle__cancelTask|].
    split.
    { split; intros [t Ht]; exfalso; simpl in Ht; subst c2.
      - rewrite _cancelTask_lookup_other in Ht by done. subst x2 c1.
        simpl in Ht. by rewrite no_image_load_after_cancel in Ht.
      - by rewrite no_mesh_load_after_cancel in Ht. }
    split; [split; intros _; simpl; [rewrite H2d0, H2d | rewrite H3d0]; done|].
    split; [split; simpl; [rewrite H2d0, H2d | rewrite H3d0, H3d]; simpl;
            congruence|].
    split; [unfold quantileClamped; simpl; by rewrite Eq0, Eq|].
    unfold scaleRegistered. simpl. by rewrite Es0, Es.
  - rewrite (set_mode_2D w Hne).
    set (x := with_scene3d _ _).
    set (c := _cancelTask LOAD_MESH x).
    cancel_facts c. destruct Hdata as (_ & _ & _ & Es & Ec & Eq & _).
    split; [|simpl; congruence].
    split; [apply idle_publish, idle__cancelTask|].
    split.
    { split; [intros _; simpl; congruence|].
      intros [t Ht]. exfalso. simpl in Ht. subst c.
      by rewrite no_mesh_load_after_cancel in Ht. }
    split; [split; simpl; rewrite Hm; [done|]; intros _; by rewrite H3d|].
    split; [split; simpl; [rewrite H2d | rewrite H3d]; simpl; congruence|].
    split; [unfold quantileClamped; simpl; by rewrite Eq|].
    unfold scaleRegistered. simpl. by rewrite Es.
  - rewrite (set_mode_3D w Hne). cbv zeta.
    set (x := with_scene2d _ _).
    set (c := _cancelTask LOAD_IMAGE x).
    cancel_facts c. destruct Hdata as (_ & _ & _ & Es & Ec & Eq & _).
    split; [|simpl; congruence].
    split; [apply idle_publish; unfold idleMeansDrained; simpl;
            apply idle__cancelTask|].
    split.
    { split; [|intros _; simpl; congruence].
      intros [t Ht]. exfalso. simpl in Ht. subst c.
      by rewrite no_image_load_after_cancel in Ht. }
    split; [split; simpl; rewrite Hm; [|done]; intros _; by rewrite H2d|].
    split; [split; simpl; [rewrite H2d | rewrite H3d]; simpl; congruence|].
    split; [unfold quantileClamped; simpl; by rewrite Eq|].
    unfold scaleRegistered. simpl. by rewrite Es.
Qed.

Ltac open_invariant :=
  unfold invariant, idleMeansDrained, loadsMatchMode, scenesMatchMode,
    colorMapsAgree, quantileClamped, scaleRegistered in *.

Lemma invariant_with_hotspotQuantile log10 q w :
  q = NaN \/ inUnit q -> invariant log10 w ->
  invariant log10 (with_hotspotQuantile q w).
Proof. open_invariant. simpl. tauto. Qed.

Lemma invariant_with_scale log10 s w :
  s = LINEAR \/ s = LOG log10 -> invariant log10 w ->
  invariant log10 (with_scale s w).
Proof. open_invariant. simpl. tauto. Qed.

Lemma invariant_resetImage log10 w :
  invariant log10 w ->
  invariant log10 (with_scene2d (Scene2D.resetImage (_scene2d w)) w).
Proof. open_invariant. simpl. tauto. Qed.

Lemma invariant_imageLoaded log10 url width height w :
  _mode w = MODE_2D -> invariant log10 w ->
  invariant log10 (imageLoaded url width height w).
Proof.
  intros Hm. open_invariant. simpl. rewrite Hm.
  intros (H1 & H2 & [H3 H4] & H5 & H6 & H7).
  repeat split; try tauto; by apply H4.
Qed.

Lemma invariant__mapMesh log10 w :
  invariant log10 w -> invariant log10 (_mapMesh w).
Proof.
  intros H. unfold _mapMesh.
  destruct (Scene3D.geometry (_scene3d w)); [|done].
  destruct (_spots w); [|done].
  by apply invariant__doTask.
Qed.

Lemma invariant_meshLoaded log10 geometry w :
  _mode w = MODE_3D -> invariant log10 w ->
  invariant log10 (meshLoaded geometry w).
Proof.
  intros Hm H. unfold meshLoaded. cbv zeta.
  assert (H1 : invariant log10
                 (with_scene3d (Scene3D.set_geometry (Some geometry) (_scene3d w)) w)).
  { revert H. open_invariant. simpl. rewrite Hm.
    intros (H1 & H2 & [H3 H4] & H5 & H6 & H7).
    repeat split; try tauto; by apply H3. }
  set (w1 := with_scene3d _ w) in *.
  change (_spots w1) with (_spots w). destruct (_spots w) as [spots|]; [|done].
  apply invariant__mapMesh. revert H1. open_invariant. simpl. rewrite Hm.
  intros (H1 & H2 & [H3 H4] & H5 & H6 & H7).
  repeat split; try tauto; by apply H3.
Qed.

Lemma invariant_intensitiesLoaded log10 spots measures w :
  invariant log10 w -> invariant log10 (intensitiesLoaded spots measures w).
Proof.
  intros H. unfold intensitiesLoaded. cbv zeta.
  eapply invariant_essence; [by apply essence_notify|].
  set (w1 := with_activeMeasure JNull _).
  assert (H1 : invariant log10 w1) by (revert H; open_invariant; simpl; tauto).
  destruct (_mode w1) eqn:E; change (_mode w1) with (_mode w) in E.
  - done.
  - revert H1. open_invariant. simpl. rewrite E.
    intros (H1 & H2 & [H3 H4] & H5 & H6 & H7).
    repeat split; try tauto; by apply H4.
  - apply invariant__mapMesh. revert H1. open_invariant. simpl. rewrite E.
    intros (H1 & H2 & [H3 H4] & H5 & H6 & H7).
    repeat split; try tauto; by apply H3.
Qed.

Lemma loads_drained w : loadsMatchMode w -> loadsMatchMode (drained w).
Proof.
  intros [Hi Hm]. destruct (decide (_tasks w = ∅)) as [He|Hne].
  - destruct (_settingsToLoad w) eqn:Ep.
    + by rewrite drained_nothing_pending.
    + destruct (drained_starts w He) as (Ht & _); [by rewrite Ep|].
      unfold loadsMatchMode. rewrite Ht.
      split; intros [t H]; by rewrite lookup_singleton_ne in H.
    + destruct (drained_starts w He) as (Ht & _); [by rewrite Ep|].
      unfold loadsMatchMode. rewrite Ht.
      split; intros [t H]; by rewrite lookup_singleton_ne in H.
  - by rewrite drained_busy.
Qed.

Lemma display_drained w : display (drained w) = display w.
Proof.
  unfold drained. destruct (noTasks w && _); [|done].
  by rewrite <- (display_startWorker LOAD_SETTINGS (FirstBlob (_settingsToLoad w)) w).
Qed.

Lemma invariant_loadSettings log10 blob w :
  invariant log10 w -> invariant log10 (loadSettings blob w).
Proof.
  intros H. apply (invariant_retask log10 w).
  - unfold loadSettings. rewrite _loadPendingSettings_eq. by rewrite display_drained.
  - apply idle_loadSettings.
  - unfold loadSettings. rewrite _loadPendingSettings_eq. apply loads_drained.
    by destruct H as (_ & ? & _).
  - exact H.
Qed.

Lemma invariant_loadImage log10 blob w :
  invariant log10 w -> invariant log10 (loadImage blob w).
Proof.
  intros H. unfold loadImage. cbv zeta.
  destruct (invariant_set_mode log10 MODE_2D w H) as [H1 Hm].
  by apply invariant__doTask, invariant_resetImage.
Qed.

Lemma invariant_loadMesh log10 blob w :
  invariant log10 w -> invariant log10 (loadMesh blob w).
Proof.
  intros H. unfold loadMesh. cbv zeta.
  destruct (invariant_set_mode log10 MODE_3D w H) as [H1 Hm].
  by apply invariant__doTask.
Qed.

Lemma invariant_loadIntensities log10 blob w :
  invariant log10 w -> invariant log10 (loadIntensities blob w).
Proof. intros H. by apply invariant__doTask. Qed.

Lemma clamped_quantile (value : num) :
  let value1 := if num_ltb value (Fin 0) then Fin 0 else value in
  let value2 := if num_ltb (Fin 1) value1 then Fin 1 else value1 in
  (value = NaN /\ value2 = NaN) \/ (value <> NaN /\ inUnit value2).
Proof.
  cbv zeta. destruct value as [| |q|]; cbn [num_ltb].
  - by left.
  - right. split; [done|]. cbn [num_ltb].
    replace (Qcltb 1 0) with false by (symmetry; by apply Qcltb_ge).
    apply inUnit_0.
  - right. split; [done|]. destruct (Qcltb q 0) eqn:E0; cbn [num_ltb].
    + replace (Qcltb 1 0) with false by (symmetry; by apply Qcltb_ge).
      apply inUnit_0.
    + destruct (Qcltb 1 q) eqn:E1; [apply inUnit_1|].
      apply Qcltb_ge in E0, E1. by exists q.
  - right. split; [done|]. apply inUnit_1.
Qed.

Lemma invariant_set_hotspotQuantile log10 value w :
  invariant log10 w -> invariant log10 (set_hotspotQuantile value w).
Proof.
  intros H. unfold set_hotspotQuantile.
  destruct (num_eqb (_hotspotQuantile w) value); [done|]. cbv zeta.
  set (q := if num_ltb (Fin 1) _ then Fin 1 else _).
  assert (Hq : q = NaN \/ inUnit q).
  { destruct (clamped_quantile value) as [[_ E]|[_ E]]; [by left | by right]. }
  pose proof (invariant_with_hotspotQuantile log10 q w Hq H) as H1.
  destruct (_autoMinMax (with_hotspotQuantile q w)); [|done].
  eapply invariant_essence; [apply essence_updateBoundsThenIntensities | done].
Qed.

Lemma getScaleById_registered log10 id s :
  getScaleById log10 id = Normal s -> s = LINEAR \/ s = LOG log10.
Proof.
  rewrite getScaleById_eq. destruct (String.eqb id "log"); [intros [= <-]; by right|].
  destruct (String.eqb id "linear"); [intros [= <-]; by left | done].
Qed.

Lemma invariant_set_scaleId log10 value w :
  invariant log10 w -> invariant log10 (after (set_scaleId log10 value w)).
Proof.
  intros H. unfold set_scaleId.
  destruct (String.eqb (Scale.id (_scale w)) value); [done|].
  destruct (getScaleById log10 value) as [s|exn] eqn:E; [|done].
  cbn [after]. eapply invariant_essence; [by apply essence_notify|].
  eapply invariant_essence; [apply essence__updateIntensities|].
  pose proof (invariant_with_scale log10 s w
                (getScaleById_registered log10 value s E) H) as H1.
  destruct (_autoMinMax (with_scale s w)); [|done].
  eapply invariant_essence; [apply essence__updateMinMaxValues | done].
Qed.

Lemma invariant_set_colorMapId log10 Maps value w :
  invariant log10 w -> invariant log10 (after (set_colorMapId Maps value w)).
Proof.
  intros H. unfold set_colorMapId. destruct (Maps !! value) as [c|]; [|done].
  cbn [after]. eapply invariant_essence; [by apply essence_notify|].
  revert H. open_invariant. simpl. tauto.
Qed.

Lemma essence_with_sceneSpots r l l' w :
  sceneSpots r w = Some l' ->
  essence (with_sceneSpots r l w) = essence w.
Proof.
  destruct r; simpl; intros H; unfold essence, display; simpl; by rewrite H.
Qed.

Lemma essence_setSpots setter values todo :
  forall i w, essence (after (setSpots setter values todo i w)) = essence w.
Proof.
  induction todo as [|todo IH]; intros i w; [done|].
  cbn [setSpots]. destruct (_spots w) as [spots|]; [|done].
  destruct (spots !! i) as [spot|]; [|done].
  destruct (values !! Spot.name spot); [|apply IH].
  set (w1 := with_spots _ w).
  destruct (_currentScene w1) as [r|]; [|by rewrite IH].
  destruct (sceneSpots r w1) as [l|] eqn:El; [|done]. simpl.
  destruct (l !! i); [|done].
  rewrite IH. by rewrite (essence_with_sceneSpots r _ l w1 El).
Qed.

Lemma essence_refreshScene r w : essence (refreshScene r w) = essence w.
Proof. by destruct r. Qed.

Lemma invariant_set_spotVisibility log10 values w :
  invariant log10 w -> invariant log10 (after (set_spotVisibility values w)).
Proof.
  intros H. unfold set_spotVisibility, spotsProperty_set.
  destruct (_spots w) as [spots|]; [|done].
  pose proof (essence_setSpots visibilitySetter values (length spots) 0 w) as E.
  destruct (setSpots visibilitySetter values (length spots) 0 w) as [w1|exn w1];
    cbn [after] in *.
  - destruct (_currentScene w1) as [r|]; cbn [after].
    + eapply invariant_essence; [|exact H]. by rewrite essence_refreshScene.
    + by eapply invariant_essence.
  - by eapply invariant_essence.
Qed.

Lemma invariant__onSpotScaleChange log10 w :
  invariant log10 w -> invariant log10 (_onSpotScaleChange w).
Proof.
  intros H. unfold _onSpotScaleChange. destruct (_mode w); [done| |].
  - revert H. open_invariant. simpl. tauto.
  - by apply invariant__mapMesh.
Qed.

Lemma invariant_set_spotScale log10 values w :
  invariant log10 w -> invariant log10 (after (set_spotScale values w)).
Proof.
  intros H. unfold set_spotScale, spotsProperty_set.
  destruct (_spots w) as [spots|]; [|done].
  pose proof (essence_setSpots scaleSetter values (length spots) 0 w) as E.
  destruct (setSpots scaleSetter values (length spots) 0 w) as [w1|exn w1];
    cbn [after] in *.
  - apply invariant__onSpotScaleChange. by eapply invariant_essence.
  - by eapply invariant_essence.
Qed.

Lemma invariant_onCompleted log10 taskType callback w :
  (forall v, _mode v = _mode w -> invariant log10 v ->
             invariant log10 (callback v)) ->
  invariant log10 w -> invariant log10 (onCompleted taskType callback w).
Proof.
  intros Hcb H. unfold onCompleted. apply Hcb.
  - rewrite (_mode_display _ _ (display__cancelTask taskType _)).
    unfold _setStatus. rewrite _notify_eq. done.
  - apply invariant__cancelTask.
    eapply invariant_essence; [apply essence__setStatus | done].
Qed.

Lemma invariant_onFailed log10 taskType message w :
  invariant log10 w -> invariant log10 (onFailed taskType message w).
Proof.
  intros H. unfold onFailed. cbv zeta.
  eapply invariant_essence; [apply essence__addError|].
  eapply invariant_essence; [apply essence__setStatus|].
  by apply invariant__cancelTask.
Qed.

Lemma invariant_new log10 Maps : invariant log10 (Workspace_new Maps).
Proof.
  open_invariant. simpl. repeat split; try done.
  - intros [t H]. by rewrite lookup_empty in H.
  - intros [t H]. by rewrite lookup_empty in H.
  - right. apply inUnit_1.
  - by left.
Qed.

Lemma invariant_happen log10 Maps h w :
  invariant log10 w -> invariant log10 (happen log10 Maps h w).
Proof.
  intros H. destruct h; cbn [happen]; unfold whenRunning.
  - by apply invariant_loadImage.
  - by apply invariant_loadMesh.
  - by apply invariant_loadIntensities.
  - by apply invariant_loadSettings.
  - eapply invariant_essence; [apply essence_selectMapByIndex | done].
  - by apply invariant_set_mode.
  - eapply invariant_essence; [apply essence_set_autoMinMax | done].
  - eapply invariant_essence; [apply essence_set_minValue | done].
  - eapply invariant_essence; [apply essence_set_maxValue | done].
  - by apply invariant_set_hotspotQuantile.
  - by apply invariant_set_scaleId.
  - by apply invariant_set_colorMapId.
  - by apply invariant_set_spotVisibility.
  - by apply invariant_set_spotScale.
  - eapply invariant_essence; [apply essence_clearErrors | done].
  - destruct (_tasks w !! TaskType.key LOAD_IMAGE) as [t|] eqn:E; [|done].
    apply invariant_onCompleted; [|done].
    intros v Hv Hinv. apply invariant_imageLoaded; [|done].
    rewrite Hv. destruct H as (_ & [Hi _] & _). apply Hi. by exists t.
  - destruct (_tasks w !! TaskType.key LOAD_MESH) as [t|] eqn:E; [|done].
    apply invariant_onCompleted; [|done].
    intros v Hv Hinv. apply invariant_meshLoaded; [|done].
    rewrite Hv. destruct H as (_ & [_ Hm] & _). apply Hm. by exists t.
  - destruct (_tasks w !! TaskType.key LOAD_MEASURES); [|done].
    apply invariant_onCompleted; [|done].
    intros v _ Hinv. by apply invariant_intensitiesLoaded.
  - destruct (_tasks w !! TaskType.key LOAD_SETTINGS); [|done].
    apply invariant_onCompleted; [|done].
    intros v _ Hinv.
    eapply invariant_essence; [apply essence_settingsLoaded | done].
  - destruct (_tasks w !! TaskType.key MAP); [|done].
    by apply invariant_onCompleted.
  - destruct (_tasks w !! TaskType.key taskType); [|done].
    by apply invariant_onFailed.
  - destruct (_tasks w !! TaskType.key taskType); [|done].
    eapply invariant_essence; [apply essence__setStatus | done].
  - destruct (_tasks w !! TaskType.key taskType); [|done]. done.
  - destruct (_tasks w !! TaskType.key taskType); [|done].
    eapply invariant_essence; [apply essence_onerror | done].
Qed.

(** Every workspace a history leads to satisfies the invariants. *)
Lemma invariant_history log10 Maps hs : invariant log10 (history log10 Maps hs).
Proof.
  unfold history. induction hs as [|h hs IH] using rev_ind.
  - apply invariant_new.
  - rewrite foldl_app. cbn [foldl]. by apply invariant_happen.
Qed.

(** X3: whatever has happened to a workspace, when no task is running
    no settings payload is waiting: a deferred settings load cannot be
    left behind by the task runner. *)
Theorem X3_idle_workspace_has_no_pending_settings log10 Maps hs :
  _tasks (history log10 Maps hs) = ∅ ->
  _settingsToLoad (history log10 Maps hs) = JNull.
Proof. by destruct (invariant_history log10 Maps hs) as (H & _). Qed.

(** X4: whatever has happened to a workspace, an image load is running
    only in the 2D mode and a mesh load only in the 3D mode. *)
Theorem X4_loads_run_in_their_mode log10 Maps hs :
  (is_Some (_tasks (history log10 Maps hs) !! "load-image") ->
   _mode (history log10 Maps hs) = MODE_2D)
  /\ (is_Some (_tasks (history log10 Maps hs) !! "load-mesh") ->
      _mode (history log10 Maps hs) = MODE_3D).
Proof. by destruct (invariant_history log10 Maps hs) as (_ & H & _). Qed.

(** X5: whatever has happened to a workspace, outside the 2D mode the
    2D scene has neither image nor spots, and outside the 3D mode the
    3D scene has neither geometry nor spots. *)
Theorem X5_scenes_hold_nothing_outside_their_mode log10 Maps hs :
  (_mode (history log10 Maps hs) <> MODE_2D ->
   Scene2D.image (_scene2d (history log10 Maps hs)) = None
   /\ Scene2D.spots (_scene2d (history log10 Maps hs)) = None)
  /\ (_mode (history log10 Maps hs) <> MODE_3D ->
      Scene3D.geometry (_scene3d (history log10 Maps hs)) = None
      /\ Scene3D.spots (_scene3d (history log10 Maps hs)) = None).
Proof. by destruct (invariant_history log10 Maps hs) as (_ & _ & H & _). Qed.

(** X6: whatever has happened to a workspace, both scenes have the
    colour map of the workspace. *)
Theorem X6_scenes_share_the_colour_map log10 Maps hs :
  Scene2D.colorMap (_scene2d (history log10 Maps hs))
  = _colorMap (history log10 Maps hs)
  /\ Scene3D.colorMap (_scene3d (history log10 Maps hs))
     = _colorMap (history log10 Maps hs).
Proof. by destruct (invariant_history log10 Maps hs) as (_ & _ & _ & H & _). Qed.

(** X7: whatever has happened to a workspace, its hotspot quantile is a
    number between 0 and 1 or NaN (the setter clamps every number but
    lets NaN through), and its scale is one of the two registered
    scales. *)
Theorem X7_quantile_and_scale_stay_in_range log10 Maps hs :
  (_hotspotQuantile (history log10 Maps hs) = NaN
   \/ inUnit (_hotspotQuantile (history log10 Maps hs)))
  /\ (_scale (history log10 Maps hs) = LINEAR
      \/ _scale (history log10 Maps hs) = LOG log10).
Proof.
  by destruct (invariant_history log10 Maps hs) as (_ & _ & _ & _ & H1 & H2).
Qed.

(** ** Bounds: a NaN quantile, manual bounds *)

Lemma num_eqb_NaN a : num_eqb a NaN = false.
Proof. by destruct a. Qed.

Lemma bounds_publish e w :
  _minValue (publish e w) = _minValue w /\ _maxValue (publish e w) = _maxValue w.
Proof. done. Qed.

Lemma bounds__updateIntensities w :
  _minValue (_updateIntensities w) = _minValue w
  /\ _maxValue (_updateIntensities w) = _maxValue w
  /\ _activeMeasure (_updateIntensities w) = _activeMeasure w
  /\ _measures (_updateIntensities w) = _measures w
  /\ _scale (_updateIntensities w) = _scale w
  /\ _hotspotQuantile (_updateIntensities w) = _hotspotQuantile w
  /\ _autoMinMax (_updateIntensities w) = _autoMinMax w.
Proof. unfold _updateIntensities. by destruct (_spots w). Qed.

Lemma sort_nonempty l : l <> [] -> sort l <> [].
Proof.
  intros H E. apply H. apply Permutation_nil. rewrite <- E.
  apply sort_perm.
Qed.

(** X8: the quantile setter lets NaN through, and with automatic
    bounds, the linear scale and a measure with at least one finite
    value the upper bound then becomes [undefined] and every spot loses
    its intensity. *)
Theorem X8_NaN_quantile_blanks_the_map w m x :
  _scale w = LINEAR -> _autoMinMax w = true -> _activeMeasure w = JObj m ->
  survivors LINEAR (Measure.values m) <> [] -> _maxValue w = Num x ->
  let w' := set_hotspotQuantile NaN w in
  _hotspotQuantile w' = NaN
  /\ _maxValue w' = Undef
  /\ Forall (fun spot => Spot.intensity spot = Num NaN)
       (default [] (_spots w')).
Proof.
  intros Hs Ha Hm Hne Hx w'. subst w'. unfold set_hotspotQuantile.
  rewrite num_eqb_NaN. cbn [num_ltb]. cbv zeta.
  set (w1 := with_hotspotQuantile NaN w).
  change (_autoMinMax w1) with (_autoMinMax w). rewrite Ha.
  unfold updateBoundsThenIntensities.
  rewrite _updateMinMaxValues_autoBounds.
  assert (Hmax : snd (autoBounds w1) = Undef).
  { unfold autoBounds, sortedValues. cbv zeta. cbn [snd].
    change (_activeMeasure w1) with (_activeMeasure w).
    change (_scale w1) with (_scale w). rewrite Hm, Hs.
    fold (survivors LINEAR (Measure.values m)).
    destruct (sort (survivors LINEAR (Measure.values m))) as [|y l] eqn:E;
      [by apply sort_nonempty in E|].
    reflexivity. }
  rewrite Hmax. change (_maxValue w1) with (_maxValue w). rewrite Hx.
  cbn [js_neq js_eq negb]. rewrite orb_true_r.
  set (w2 := publish _ _).
  destruct (bounds__updateIntensities w2) as (_ & E2 & _ & _ & _ & E3 & _).
  split; [by rewrite E3|]. split; [by rewrite E2|].
  destruct (_spots w2) as [spots|] eqn:Esp.
  - rewrite (_updateIntensities_spots w2 spots Esp). simpl.
    apply Forall_lookup. intros i s Hi. rewrite list_lookup_imap in Hi.
    destruct (spots !! i); [|done]. injection Hi as <-. simpl.
    unfold intensityAt. change (_maxValue w2) with (@Undef).
    unfold js_ge, js_div, js_sub. cbn [ToNumber].
    destruct (ToNumber (scaledValue w2 i)) as [| |s|];
      destruct (ToNumber (_minValue w2)) as [| |lo|]; cbn; try done;
      by destruct (negb _).
  - rewrite (_updateIntensities_no_spots w2 Esp), Esp. constructor.
Qed.

Lemma bounds_set_scaleId_manual log10 id w :
  _autoMinMax w = false ->
  _minValue (after (set_scaleId log10 id w)) = _minValue w
  /\ _maxValue (after (set_scaleId log10 id w)) = _maxValue w.
Proof.
  intros Ha. unfold set_scaleId.
  destruct (String.eqb (Scale.id (_scale w)) id); [done|].
  destruct (getScaleById log10 id) as [s|exn]; [|done].
  cbn [after]. rewrite _notify_eq.
  change (_autoMinMax (with_scale s w)) with (_autoMinMax w). rewrite Ha.
  destruct (bounds__updateIntensities (with_scale s w)) as (E1 & E2 & _).
  split; [exact E1 | exact E2].
Qed.

(** X9: with automatic bounds on, assigning minValue or maxValue
    changes nothing; with automatic bounds off, the assigned bound is
    stored as a number and neither selecting a measure nor assigning
    the quantile or the scale touches the bounds. *)
Theorem X9_manual_bounds log10 w :
  (_autoMinMax w = true ->
   forall value, set_minValue value w = w /\ set_maxValue value w = w)
  /\ (_autoMinMax w = false ->
      (forall value,
          _minValue (set_minValue value w) = Num (ToNumber value)
          /\ _maxValue (set_minValue value w) = _maxValue w
          /\ _maxValue (set_maxValue value w) = Num (ToNumber value)
          /\ _minValue (set_maxValue value w) = _minValue w)
      /\ (forall index,
            _minValue (selectMapByIndex index w) = _minValue w
            /\ _maxValue (selectMapByIndex index w) = _maxValue w)
      /\ (forall value,
            _minValue (set_hotspotQuantile value w) = _minValue w
            /\ _maxValue (set_hotspotQuantile value w) = _maxValue w)
      /\ (forall id,
            _minValue (after (set_scaleId log10 id w)) = _minValue w
            /\ _maxValue (after (set_scaleId log10 id w)) = _maxValue w)).
Proof.
  split.
  - intros Ha value. unfold set_minValue, set_maxValue. by rewrite Ha.
  - intros Ha. split; [|split; [|split]].
    + intros value. unfold set_minValue, set_maxValue. rewrite Ha.
      rewrite !_notify_eq. cbv zeta.
      destruct (bounds__updateIntensities
                  (with_minValue (Num (ToNumber value)) w)) as (E1 & E2 & _).
      destruct (bounds__updateIntensities
                  (with_maxValue (Num (ToNumber value)) w)) as (E3 & E4 & _).
      repeat split; assumption.
    + intros index. unfold selectMapByIndex.
      destruct (_measures w) as [ms|]; [|done]. cbv zeta.
      change (_autoMinMax (with_activeMeasure (nth_ref ms index) w))
        with (_autoMinMax w). rewrite Ha.
      destruct (bounds__updateIntensities
                  (with_activeMeasure (nth_ref ms index) w)) as (E1 & E2 & _).
      split; assumption.
    + intros value. unfold set_hotspotQuantile.
      destruct (num_eqb (_hotspotQuantile w) value); [done|]. cbv zeta.
      set (q := if num_ltb (Fin 1) _ then Fin 1 else _).
      change (_autoMinMax (with_hotspotQuantile q w)) with (_autoMinMax w).
      by rewrite Ha.
    + intros id. by apply bounds_set_scaleId_manual.
Qed.

(** ** Switching the scale and back *)

Lemma _updateMinMaxValues_keeps w :
  let w' := snd (_updateMinMaxValues w) in
  _spots w' = _spots w /\ _activeMeasure w' = _activeMeasure w
  /\ _measures w' = _measures w /\ _scale w' = _scale w
  /\ _hotspotQuantile w' = _hotspotQuantile w
  /\ _autoMinMax w' = _autoMinMax w.
Proof.
  cbv zeta. rewrite _updateMinMaxValues_autoBounds.
  by destruct (js_neq _ _ || js_neq _ _).
Qed.

Lemma _updateIntensities_spots_general w :
  _spots (_updateIntensities w)
  = option_map (imap (fun i s => Spot.set_intensity (intensityAt w i) s))
      (_spots w).
Proof.
  destruct (_spots w) as [spots|] eqn:E.
  - by rewrite (_updateIntensities_spots w spots E).
  - by rewrite (_updateIntensities_no_spots w E), E.
Qed.

Lemma imap_set_intensity_twice (f g : nat -> val) (spots : list Spot.t) :
  imap (fun i s => Spot.set_intensity (f i) s)
    (imap (fun i s => Spot.set_intensity (g i) s) spots)
  = imap (fun i s => Spot.set_intensity (f i) s) spots.
Proof.
  apply list_eq. intros i. rewrite !list_lookup_imap.
  by destruct (spots !! i).
Qed.

Lemma intensityAt_ext w w' i :
  _activeMeasure w' = _activeMeasure w -> _scale w' = _scale w ->
  _minValue w' = _minValue w -> _maxValue w' = _maxValue w ->
  intensityAt w' i = intensityAt w i.
Proof.
  intros Ha Hs Hlo Hhi. unfold intensityAt, scaledValue.
  by rewrite Ha, Hs, Hlo, Hhi.
Qed.

(** The recomputed spots do not depend on the intensities the spots had
    before. *)
Lemma _updateIntensities_spots_ext w w' g :
  _spots w'
  = option_map (imap (fun i s => Spot.set_intensity (g i) s)) (_spots w) ->
  (forall i, intensityAt w' i = intensityAt w i) ->
  _spots (_updateIntensities w') = _spots (_updateIntensities w).
Proof.
  intros Hsp Hi. rewrite !_updateIntensities_spots_general, Hsp.
  destruct (_spots w) as [spots|]; [|done]. cbn [option_map]. f_equal.
  rewrite imap_set_intensity_twice. apply imap_ext. intros i s _.
  by rewrite Hi.
Qed.

Lemma autoBounds_numbers_LINEAR w (q : Qc) :
  _scale w = LINEAR -> _hotspotQuantile w = Fin q ->
  (0 <= q)%Qc -> (q <= 1)%Qc ->
  exists a b, autoBounds w = (Num a, Num b).
Proof.
  intros Hs Hq H0 H1. unfold autoBounds. cbv zeta. rewrite Hs, Hq.
  cbn [Scale.function LINEAR].
  destruct (Nat.ltb 0 (length (sortedValues w))) eqn:E; [|by eexists _, _].
  apply Nat.ltb_lt in E.
  destruct (hotspotIndex_rank _ q E H0 H1) as [Hidx Hrank].
  destruct (lookup_lt_is_Some_2 (sortedValues w) 0 E) as [lo Hlo].
  destruct (lookup_lt_is_Some_2 (sortedValues w) _ Hrank) as [hi Hhi].
  exists lo, hi. rewrite Hidx, array_get_ofZ, Hhi.
  change (Fin 0) with (ofZ (Z.of_nat 0)). by rewrite array_get_ofZ, Hlo.
Qed.

Lemma bounds_after_update w a b :
  autoBounds w = (Num a, Num b) ->
  _minValue (snd (_updateMinMaxValues w)) = Num a
  /\ _maxValue (snd (_updateMinMaxValues w)) = Num b.
Proof.
  intros H. rewrite _updateMinMaxValues_autoBounds, H. cbn [fst snd].
  destruct (js_neq (_minValue w) (Num a) || js_neq (_maxValue w) (Num b)) eqn:E;
    cbn [snd]; [done|].
  apply orb_false_iff in E as [E1 E2]. unfold js_neq in E1, E2.
  apply negb_false_iff in E1, E2. split; by apply js_eq_Num.
Qed.

(** What assigning a registered scale id other than the current one
    amounts to. *)
Lemma set_scaleId_switch log10 id s w :
  String.eqb (Scale.id (_scale w)) id = false ->
  getScaleById log10 id = Normal s ->
  set_scaleId log10 id w =
  Ok (publish MAPPING_CHANGE
        (_updateIntensities
           (if _autoMinMax w then snd (_updateMinMaxValues (with_scale s w))
            else with_scale s w))).
Proof.
  intros H1 H2. unfold set_scaleId. rewrite H1, H2. by rewrite _notify_eq.
Qed.

(** X10: from the linear scale, switching to the logarithmic scale and
    back succeeds, leaves the measures and the active measure
    untouched, and ends with exactly the bounds and the spots a plain
    recomputation under the linear scale gives (with automatic bounds,
    for a quantile between 0 and 1). *)
Theorem X10_scale_round_trip log10 w :
  _scale w = LINEAR ->
  (_autoMinMax w = true -> inUnit (_hotspotQuantile w)) ->
  exists w1 w2,
    set_scaleId log10 "log" w = Ok w1
    /\ set_scaleId log10 "linear" w1 = Ok w2
    /\ _scale w2 = LINEAR
    /\ _measures w2 = _measures w
    /\ _activeMeasure w2 = _activeMeasure w
    /\ let direct :=
         _updateIntensities
           (if _autoMinMax w then snd (_updateMinMaxValues w) else w) in
       _minValue w2 = _minValue direct
       /\ _maxValue w2 = _maxValue direct
       /\ _spots w2 = _spots direct.
Proof.
  intros Hs Hq.
  set (A := with_scale (LOG log10) w).
  set (A' := if _autoMinMax w then snd (_updateMinMaxValues A) else A).
  set (w1 := publish MAPPING_CHANGE (_updateIntensities A')).
  set (B := with_scale LINEAR w1).
  set (B' := if _autoMinMax w1 then snd (_updateMinMaxValues B) else B).
  set (w2 := publish MAPPING_CHANGE (_updateIntensities B')).
  set (D' := if _autoMinMax w then snd (_updateMinMaxValues w) else w).
  assert (HA' : _spots A' = _spots w /\ _activeMeasure A' = _activeMeasure w
                /\ _measures A' = _measures w /\ _scale A' = LOG log10
                /\ _hotspotQuantile A' = _hotspotQuantile w
                /\ _autoMinMax A' = _autoMinMax w).
  { subst A'. destruct (_autoMinMax w) eqn:Ea; [|by subst A; cbn; rewrite ?Ea].
    destruct (_updateMinMaxValues_keeps A) as (-> & -> & -> & -> & -> & ->).
    by subst A; cbn; rewrite ?Ea. }
  destruct HA' as (As & Aa & Am & Asc & Aq & Aau).
  destruct (bounds__updateIntensities A')
    as (Ulo & Uhi & Ua & Um & Usc & Uq & Uau).
  assert (Hw1 : _activeMeasure w1 = _activeMeasure w /\ _measures w1 = _measures w
                /\ _scale w1 = LOG log10
                /\ _hotspotQuantile w1 = _hotspotQuantile w
                /\ _autoMinMax w1 = _autoMinMax w).
  { subst w1. cbn. by rewrite Ua, Um, Usc, Uq, Uau, Aa, Am, Asc, Aq, Aau. }
  destruct Hw1 as (W1a & W1m & W1sc & W1q & W1au).
  assert (Hsp1 : _spots w1
                 = option_map
                     (imap (fun i s => Spot.set_intensity (intensityAt A' i) s))
                     (_spots w)).
  { subst w1. cbn. by rewrite _updateIntensities_spots_general, As. }
  assert (HB' : _spots B' = _spots w1 /\ _activeMeasure B' = _activeMeasure w
                /\ _measures B' = _measures w /\ _scale B' = LINEAR).
  { subst B'. destruct (_autoMinMax w1).
    - destruct (_updateMinMaxValues_keeps B) as (-> & -> & -> & -> & _).
      by rewrite <- W1a, <- W1m.
    - by rewrite <- W1a, <- W1m. }
  destruct HB' as (Bs & Ba & Bm & Bsc).
  assert (HD' : _spots D' = _spots w /\ _activeMeasure D' = _activeMeasure w
                /\ _scale D' = LINEAR).
  { subst D'. destruct (_autoMinMax w); [|done].
    destruct (_updateMinMaxValues_keeps w) as (-> & -> & _ & -> & _). done. }
  destruct HD' as (Ds & Da & Dsc).
  assert (Hbounds : _minValue B' = _minValue D' /\ _maxValue B' = _maxValue D').
  { subst B' D'. rewrite W1au. destruct (_autoMinMax w) eqn:Ea.
    - destruct (Hq eq_refl) as (q & Eq & H0 & H1).
      destruct (autoBounds_numbers_LINEAR w q Hs Eq H0 H1) as (a & b & Hab).
      assert (HabB : autoBounds B = (Num a, Num b)).
      { rewrite <- Hab. apply autoBounds_ext; [exact W1a | by rewrite Hs
          | exact W1q]. }
      destruct (bounds_after_update B a b HabB) as [-> ->].
      by destruct (bounds_after_update w a b Hab) as [-> ->].
    - subst B w1. cbn. rewrite Ulo, Uhi. subst A'. by rewrite ?Ea. }
  destruct Hbounds as [Blo Bhi].
  destruct (bounds__updateIntensities B') as (Vlo & Vhi & Va & Vm & Vsc & _).
  destruct (bounds__updateIntensities D') as (Xlo & Xhi & _).
  exists w1, w2. split; [|split].
  - apply set_scaleId_switch; [by rewrite Hs | by rewrite getScaleById_eq].
  - apply (set_scaleId_switch log10 "linear" LINEAR w1);
      [by rewrite W1sc | by rewrite getScaleById_eq].
  - cbv zeta. fold D'. subst w2. cbn.
    rewrite Vsc, Vm, Va, Vlo, Vhi, Xlo, Xhi, Bsc, Bm, Ba, Blo, Bhi.
    repeat split.
    apply (_updateIntensities_spots_ext D' B' (intensityAt A')).
    + by rewrite Bs, Hsp1, Ds.
    + intros i. apply intensityAt_ext; congruence.
Qed.

(** ** The task runner *)

Lemma _cancelTask_keeps taskType w key task :
  key <> TaskType.key taskType -> _tasks w !! key = Some task ->
  _tasks (_cancelTask taskType w) !! key = Some task.
Proof.
  intros Hk Ht. rewrite _cancelTask_eq. cbv zeta.
  assert (H : _tasks (removeTask taskType w) !! key = Some task).
  { rewrite removeTask_tasks. by rewrite lookup_delete_ne. }
  destruct (noTasks (removeTask taskType w)) eqn:En; [|done].
  apply noTasks_empty in En. rewrite En in H. by rewrite lookup_empty in H.
Qed.

Lemma _cancelTask_workers taskType w :
  workers w <= workers (_cancelTask taskType w).
Proof.
  rewrite _cancelTask_eq. cbv zeta.
  destruct (noTasks (removeTask taskType w)) eqn:En;
    [|by rewrite removeTask_workers].
  set (w1 := publish NO_TASKS (removeTask taskType w)).
  assert (Hw : workers w1 = workers w) by apply removeTask_workers.
  assert (He : _tasks w1 = ∅) by (by apply noTasks_empty in En).
  destruct (_settingsToLoad w1) eqn:Ep.
  - rewrite (drained_nothing_pending w1 Ep). lia.
  - destruct (drained_starts w1 He) as (_ & _ & -> & _); [by rewrite Ep | lia].
  - destruct (drained_starts w1 He) as (_ & _ & -> & _); [by rewrite Ep | lia].
Qed.

Lemma terminated_startWorker taskType args w :
  terminated (startWorker taskType args w) = terminated w.
Proof. unfold startWorker. by destruct (TaskType.worker taskType). Qed.

Lemma workers_startWorker taskType args w :
  workers (startWorker taskType args w) = S (workers w).
Proof. unfold startWorker. by destruct (TaskType.worker taskType). Qed.

(** X11: starting a task replaces the running task of its own kind and
    no other: the new task has a new worker and the payload, the worker
    of the replaced task is the one worker terminated, and every other
    running task keeps running. *)
Theorem X11_doTask_replaces_its_own_task taskType args w :
  let w' := _doTask taskType args w in
  (exists handle,
      _tasks w' !! TaskType.key taskType = Some (Task.mk handle "" args)
      /\ workers w <= handle < workers w')
  /\ terminated w'
     = (terminated w
        ++ match _tasks w !! TaskType.key taskType with
           | Some task => [Task.worker task]
           | None => []
           end)%list
  /\ (forall key task,
        key <> TaskType.key taskType -> _tasks w !! key = Some task ->
        _tasks w' !! key = Some task).
Proof.
  cbv zeta. rewrite _doTask_eq.
  set (w1 := match _tasks w !! TaskType.key taskType with
             | Some _ => _cancelTask taskType w
             | None => w
             end).
  assert (Hw : workers w <= workers w1).
  { subst w1. destruct (_tasks w !! TaskType.key taskType); [|lia].
    apply _cancelTask_workers. }
  split; [|split].
  - exists (workers w1). rewrite _tasks_startWorker, lookup_insert_eq.
    rewrite workers_startWorker. split; [done|lia].
  - rewrite terminated_startWorker. subst w1.
    destruct (_tasks w !! TaskType.key taskType) as [task|] eqn:E.
    + by rewrite _cancelTask_terminated, E.
    + by rewrite app_nil_r.
  - intros key task Hk Ht. rewrite _tasks_startWorker.
    rewrite lookup_insert_ne by done. subst w1.
    destruct (_tasks w !! TaskType.key taskType); [|done].
    by apply _cancelTask_keeps.
Qed.

(** ** Failures *)

Lemma _setStatus_eq status w :
  _setStatus status w = publish STATUS_CHANGE (with_status status w).
Proof. unfold _setStatus. by rewrite _notify_eq. Qed.

Lemma _addError_eq message w :
  _addError message w
  = publish ERRORS_CHANGE (with_errors (_errors w ++ [message]) w).
Proof. unfold _addError. by rewrite _notify_eq. Qed.

(** X12: when the worker of a running task reports [failed], the task
    is retired and its worker terminated, the status is cleared and one
    message is added to the errors; the other running tasks keep
    running; and if the task was the only one while settings were
    waiting, the load of the settings starts. *)
Theorem X12_failed_task_is_retired taskType message w task :
  _tasks w !! TaskType.key taskType = Some task ->
  let w' := onFailed taskType message w in
  _errors w' = (_errors w ++ [("Operation failed: " ++ message)%string])%list
  /\ _status w' = ""
  /\ In (Task.worker task) (terminated w')
  /\ published w'
     = (published (_cancelTask taskType w) ++ [STATUS_CHANGE; ERRORS_CHANGE])%list
  /\ (TaskType.key taskType <> "load-settings" ->
      _tasks w' !! TaskType.key taskType = None)
  /\ (forall key other,
        key <> TaskType.key taskType -> _tasks w !! key = Some other ->
        _tasks w' !! key = Some other)
  /\ (_tasks w = {[ TaskType.key taskType := task ]} ->
      _settingsToLoad w <> JNull ->
      _tasks w'
      = {[ "load-settings" :=
             Task.mk (workers w) "" (FirstBlob (_settingsToLoad w)) ]}
      /\ _settingsToLoad w' = JNull).
Proof.
  intros Ht. cbv zeta. unfold onFailed. cbv zeta.
  rewrite _addError_eq, _setStatus_eq.
  set (c := _cancelTask taskType w).
  pose proof (_cancelTask_frame taskType w) as Hf. cbv zeta in Hf. fold c in Hf.
  destruct Hf as (_ & _ & _ & _ & Hd).
  destruct Hd as (_ & _ & _ & _ & _ & _ & _ & _ & _ & He & _).
  cbn. rewrite He.
  split; [done|]. split; [done|].
  split; [by apply _cancelTask_terminates|].
  split; [by rewrite <- app_assoc|].
  split; [by apply _cancelTask_lookup_self|].
  split; [intros key other Hk Ho; by apply _cancelTask_keeps|].
  intros Hone Hp. subst c. rewrite _cancelTask_eq. cbv zeta.
  assert (Hr : _tasks (removeTask taskType w) = ∅).
  { rewrite removeTask_tasks, Hone. apply delete_singleton_eq. }
  rewrite (proj2 (noTasks_empty _) Hr).
  set (w1 := publish NO_TASKS (removeTask taskType w)).
  assert (Hp1 : _settingsToLoad w1 <> JNull).
  { subst w1. cbn. by rewrite removeTask_settingsToLoad. }
  destruct (drained_starts w1 Hr Hp1) as (-> & -> & _).
  subst w1. cbn. by rewrite removeTask_workers, removeTask_settingsToLoad.
Qed.

(** X13: when a worker itself raises an error, the status is cleared
    and one message is added to the errors, and that is all: unlike
    after a [failed] message the task stays registered, its worker is
    not terminated, and settings that wait for the tasks to end keep
    waiting. *)
Theorem X13_worker_error_leaves_the_task_running w :
  let w' := onerror w in
  _tasks w' = _tasks w
  /\ terminated w' = terminated w
  /\ _settingsToLoad w' = _settingsToLoad w
  /\ _status w' = ""
  /\ _errors w' = (_errors w ++ ["Operation failed. See log for details."])%list
  /\ published w' = (published w ++ [STATUS_CHANGE; ERRORS_CHANGE])%list.
Proof.
  cbv zeta. unfold onerror. cbv zeta. rewrite _addError_eq, _setStatus_eq.
  cbn. by rewrite <- app_assoc.
Qed.

(** ** What a mode switch cancels *)

Lemma _cancelTask_terminated_In taskType w h :
  In h (terminated (_cancelTask taskType w)) ->
  In h (terminated w)
  \/ exists task,
       _tasks w !! TaskType.key taskType = Some task /\ Task.worker task = h.
Proof.
  rewrite _cancelTask_terminated. intros H. apply in_app_or in H as [H|H];
    [by left|].
  destruct (_tasks w !! TaskType.key taskType) as [task|]; [|done].
  destruct H as [<-|[]]. right. by exists task.
Qed.

(** X14: a mode switch cancels image and mesh loads only.  A running
    task of any other kind keeps running, and the only workers
    terminated are those of the image load and of the mesh load. *)
Theorem X14_mode_switch_cancels_loads_only value w :
  (forall key task,
      key <> "load-image" -> key <> "load-mesh" ->
      _tasks w !! key = Some task ->
      _tasks (set_mode value w) !! key = Some task)
  /\ (forall h,
        In h (terminated (set_mode value w)) ->
        In h (terminated w)
        \/ exists task,
             (_tasks w !! "load-image" = Some task
              \/ _tasks w !! "load-mesh" = Some task)
             /\ Task.worker task = h).
Proof.
  destruct (Mode_eqb (_mode w) value) eqn:E.
  { assert (set_mode value w = w) as -> by (by unfold set_mode; rewrite E).
    split; [done | by left]. }
  apply Mode_eqb_neq in E. destruct value.
  - rewrite (set_mode_UNDEFINED w E). cbv zeta.
    set (x1 := with_scene2d _ _).
    set (c1 := _cancelTask LOAD_IMAGE x1).
    set (x2 := with_scene3d _ c1).
    split.
    + intros key task Hi Hm Ht. cbn.
      apply (_cancelTask_keeps LOAD_MESH x2); [done|].
      by apply (_cancelTask_keeps LOAD_IMAGE x1).
    + intros h Hh. cbn in Hh.
      apply _cancelTask_terminated_In in Hh as [Hh|(task & Ht & Hw)].
      * apply (_cancelTask_terminated_In LOAD_IMAGE x1) in Hh
          as [Hh|(task & Ht & Hw)]; [by left|].
        right. exists task. split; [by left | done].
      * right. exists task. split; [|done]. right.
        change (_tasks c1 !! "load-mesh" = Some task) in Ht. subst c1.
        by rewrite _cancelTask_lookup_other in Ht.
  - rewrite (set_mode_2D w E).
    set (x := with_scene3d _ _).
    split.
    + intros key task Hi Hm Ht. cbn.
      by apply (_cancelTask_keeps LOAD_MESH x).
    + intros h Hh. cbn in Hh.
      apply _cancelTask_terminated_In in Hh as [Hh|(task & Ht & Hw)];
        [by left|].
      right. exists task. split; [by right | done].
  - rewrite (set_mode_3D w E). cbv zeta.
    set (x := with_scene2d _ _).
    split.
    + intros key task Hi Hm Ht. cbn.
      by apply (_cancelTask_keeps LOAD_IMAGE x).
    + intros h Hh. cbn in Hh.
      apply _cancelTask_terminated_In in Hh as [Hh|(task & Ht & Hw)];
        [by left|].
      right. exists task. split; [by left | done].
Qed.

(** ** Order of the intensities *)





(** ** Spot scales *)

Lemma _doTask_frame taskType args w :
  let w' := _doTask taskType args w in
  _mode w' = _mode w /\ _scene2d w' = _scene2d w /\ _scene3d w' = _scene3d w
  /\ _currentScene w' = _currentScene w /\ sameData w w'.
Proof.
  cbv zeta. rewrite _doTask_eq.
  assert (H : forall v,
             _mode v = _mode w /\ _scene2d v = _scene2d w
             /\ _scene3d v = _scene3d w /\ _currentScene v = _currentScene w
             /\ sameData w v ->
             let w' := startWorker taskType args v in
             _mode w' = _mode w /\ _scene2d w' = _scene2d w
             /\ _scene3d w' = _scene3d w /\ _currentScene w' = _currentScene w
             /\ sameData w w').
  { intros v Hv. unfold startWorker, sameData in *.
    by destruct (TaskType.worker taskType). }
  apply H. destruct (_tasks w !! TaskType.key taskType).
  - apply _cancelTask_frame.
  - unfold sameData. done.
Qed.



(** ** Loading a mesh *)

Arguments _doTask : simpl never.

Lemma globalSpotScale_set_mode value w :
  Scene3D.globalSpotScale (_scene3d (set_mode value w))
  = Scene3D.globalSpotScale (_scene3d w).
Proof.
  destruct (Mode_eqb (_mode w) value) eqn:E.
  { by unfold set_mode; rewrite E. }
  apply Mode_eqb_neq in E. destruct value.
  - rewrite (set_mode_UNDEFINED w E). cbv zeta.
    set (x1 := with_scene2d _ _).
    set (c1 := _cancelTask LOAD_IMAGE x1).
    set (x2 := with_scene3d _ c1).
    set (c2 := _cancelTask LOAD_MESH x2).
    cancel_facts c1. cancel_facts c2. cbn. by rewrite H3d0, H3d.
  - rewrite (set_mode_2D w E).
    set (x := with_scene3d _ _).
    set (c := _cancelTask LOAD_MESH x).
    cancel_facts c. cbn. by rewrite H3d.
  - rewrite (set_mode_3D w E). cbv zeta.
    set (x := with_scene2d _ _).
    set (c := _cancelTask LOAD_IMAGE x).
    cancel_facts c. cbn. by rewrite H3d.
Qed.

Lemma _spots_set_mode value w : _spots (set_mode value w) = _spots w.
Proof.
  destruct (Mode_eqb (_mode w) value) eqn:E.
  { by unfold set_mode; rewrite E. }
  apply Mode_eqb_neq in E. destruct value.
  - rewrite (set_mode_UNDEFINED w E). cbv zeta.
    set (x1 := with_scene2d _ _).
    set (c1 := _cancelTask LOAD_IMAGE x1).
    set (x2 := with_scene3d _ c1).
    set (c2 := _cancelTask LOAD_MESH x2).
    cancel_facts c1. cancel_facts c2.
    destruct Hdata as (Ea & _). destruct Hdata0 as (Eb & _). cbn.
    by rewrite Eb, Ea.
  - rewrite (set_mode_2D w E).
    set (x := with_scene3d _ _).
    set (c := _cancelTask LOAD_MESH x).
    cancel_facts c. destruct Hdata as (Ea & _). cbn. by rewrite Ea.
  - rewrite (set_mode_3D w E). cbv zeta.
    set (x := with_scene2d _ _).
    set (c := _cancelTask LOAD_IMAGE x).
    cancel_facts c. destruct Hdata as (Ea & _). cbn. by rewrite Ea.
Qed.

Lemma _mode_set_mode value w : _mode (set_mode value w) = value.
Proof.
  destruct (Mode_eqb (_mode w) value) eqn:E.
  { unfold set_mode; rewrite E. by apply Mode_eqb_eq in E. }
  apply Mode_eqb_neq in E. destruct value.
  - rewrite (set_mode_UNDEFINED w E). cbv zeta.
    set (x1 := with_scene2d _ _).
    set (c1 := _cancelTask LOAD_IMAGE x1).
    set (x2 := with_scene3d _ c1).
    set (c2 := _cancelTask LOAD_MESH x2).
    cancel_facts c1. cancel_facts c2. cbn. by rewrite Hm0, Hm.
  - rewrite (set_mode_2D w E).
    set (x := with_scene3d _ _).
    set (c := _cancelTask LOAD_MESH x).
    cancel_facts c. cbn. by rewrite Hm.
  - rewrite (set_mode_3D w E). cbv zeta.
    set (x := with_scene2d _ _).
    set (c := _cancelTask LOAD_IMAGE x).
    cancel_facts c. cbn. by rewrite Hm.
Qed.

(** X17: loading a mesh.  The request puts the workspace in the 3D
    mode and leaves a mesh load running with the first blob as its
    payload.  When the load completes the mesh load is retired, the
    status is cleared and the 3D scene has the geometry; if the
    workspace has spots, the scene is handed them and a mapping task is
    started with the geometry and the spots, and if it has none, no
    mapping task is started. *)
Theorem X17_mesh_load_then_mapping blob geometry w :
  let w1 := loadMesh blob w in
  let w2 := onCompleted LOAD_MESH (meshLoaded geometry) w1 in
  _mode w1 = MODE_3D
  /\ (exists handle,
        _tasks w1 !! "load-mesh"
        = Some (Task.mk handle "" (FirstBlob (nth_ref blob 0))))
  /\ _mode w2 = MODE_3D
  /\ Scene3D.geometry (_scene3d w2) = Some geometry
  /\ _status w2 = ""
  /\ _tasks w2 !! "load-mesh" = None
  /\ match _spots w with
     | Some spots =>
         Scene3D.spots (_scene3d w2) = Some spots
         /\ exists handle,
              _tasks w2 !! "map"
              = Some (Task.mk handle ""
                        (MapArgs geometry spots
                           (Scene3D.globalSpotScale (_scene3d w))))
     | None => _tasks w2 !! "map" = _tasks w1 !! "map"
     end.
Proof.
  cbv zeta. unfold loadMesh. cbv zeta.
  set (w0 := set_mode MODE_3D w).
  set (w1 := _doTask LOAD_MESH (FirstBlob (nth_ref blob 0)) w0).
  assert (Hm0 : _mode w0 = MODE_3D) by apply _mode_set_mode.
  assert (Hs0 : _spots w0 = _spots w) by apply _spots_set_mode.
  assert (Hg0 : Scene3D.globalSpotScale (_scene3d w0)
                = Scene3D.globalSpotScale (_scene3d w))
    by apply globalSpotScale_set_mode.
  destruct (_doTask_frame LOAD_MESH (FirstBlob (nth_ref blob 0)) w0)
    as (Hm1 & _ & H3 & _ & Hd1).
  fold w1 in Hm1, H3, Hd1. destruct Hd1 as (Hs1 & _).
  assert (Hrun : exists handle,
             _tasks w1 !! "load-mesh"
             = Some (Task.mk handle "" (FirstBlob (nth_ref blob 0)))).
  { subst w1. rewrite _doTask_eq, _tasks_startWorker.
    eexists. apply (lookup_insert_eq _ "load-mesh"). }
  clearbody w1. clearbody w0.
  unfold onCompleted. rewrite _setStatus_eq.
  set (x := publish STATUS_CHANGE (with_status "" w1)).
  set (c := _cancelTask LOAD_MESH x).
  cancel_facts c.
  destruct Hdata as (Hsc & _ & _ & _ & _ & _ & _ & _ & _ & _ & Hst & _).
  assert (Hlm : _tasks c !! "load-mesh" = None)
    by apply no_mesh_load_after_cancel.
  split; [congruence|].
  split; [exact Hrun|].
  unfold meshLoaded. cbv zeta.
  set (y := with_scene3d (Scene3D.set_geometry (Some geometry) (_scene3d c)) c).
  assert (Hsy : _spots y = _spots w) by (subst y; cbn; congruence).
  destruct (_spots w) as [spots|] eqn:Esp; rewrite Hsy.
  - unfold _mapMesh. cbn. rewrite Hsc, Hs1, Hs0.
    set (args := MapArgs _ _ _).
    set (z := with_scene3d _ y).
    destruct (_doTask_frame MAP args z) as (Hmz & _ & H3z & _ & Hdz).
    destruct Hdz as (_ & _ & _ & _ & _ & _ & _ & _ & _ & _ & Hstz & _).
    rewrite Hmz, H3z, Hstz.
    split; [subst z y; cbn; congruence|].
    split; [done|]. split; [subst z y; cbn; congruence|].
    split.
    { rewrite _doTask_lookup by done. exact Hlm. }
    split; [done|].
    subst args. rewrite H3d. cbn. rewrite H3, Hg0.
    rewrite _doTask_eq, _tasks_startWorker. eexists. apply lookup_insert_eq.
  - split; [subst y; cbn; congruence|]. split; [done|].
    split; [subst y; cbn; congruence|]. split; [exact Hlm|].
    subst y c x. cbn. by rewrite _cancelTask_lookup_other.
Qed.

(** ** Bounds that never settle *)

Lemma js_neq_NaN v : js_neq v (Num NaN) = true.
Proof. destruct v as [| |x]; [done..|]. unfold js_neq, js_eq. by rewrite num_eqb_NaN. Qed.

Lemma autoBounds_LOG_NaN log10 w m :
  log10 NaN = NaN -> _scale w = LOG log10 -> _activeMeasure w = JObj m ->
  survivors (LOG log10) (Measure.values m) <> [] -> _hotspotQuantile w = NaN ->
  snd (autoBounds w) = Num NaN.
Proof.
  intros Hlog Hs Hm Hne Hq. unfold autoBounds, sortedValues. cbv zeta.
  cbn [snd]. rewrite Hs, Hm, Hq.
  fold (survivors (LOG log10) (Measure.values m)).
  destruct (sort (survivors (LOG log10) (Measure.values m))) as [|y l] eqn:E;
    [by apply sort_nonempty in E|].
  cbn [length Nat.ltb Nat.leb]. unfold hotspotIndex, ofZ.
  cbn [num_mul num_ceil array_get Scale.function LOG ToNumber].
  by rewrite Hlog.
Qed.

(** X18: under the logarithmic scale a NaN quantile makes the upper
    bound NaN, and since NaN differs from every value, itself included,
    every recomputation of the bounds reports a change and publishes
    its events again, however often it is repeated (under the linear
    scale the second recomputation reports none). *)
Theorem X18_log_bounds_never_settle_on_a_NaN_quantile log10 w m :
  log10 NaN = NaN -> _scale w = LOG log10 -> _activeMeasure w = JObj m ->
  survivors (LOG log10) (Measure.values m) <> [] -> _hotspotQuantile w = NaN ->
  forall n,
    let w' := Nat.iter n (fun v => snd (_updateMinMaxValues v)) w in
    fst (_updateMinMaxValues w') = true
    /\ _maxValue (snd (_updateMinMaxValues w')) = Num NaN
    /\ published (snd (_updateMinMaxValues w'))
       = (published w' ++ [AUTO_MAPPING_CHANGE; MAPPING_CHANGE])%list.
Proof.
  intros Hlog Hs Hm Hne Hq n. cbv zeta.
  assert (Hkeep : _scale (Nat.iter n (fun v => snd (_updateMinMaxValues v)) w)
                  = LOG log10
                  /\ _activeMeasure
                       (Nat.iter n (fun v => snd (_updateMinMaxValues v)) w)
                     = JObj m
                  /\ _hotspotQuantile
                       (Nat.iter n (fun v => snd (_updateMinMaxValues v)) w)
                     = NaN).
  { induction n as [|n IH]; [done|]. rewrite Nat.iter_succ. cbv beta.
    destruct (_updateMinMaxValues_keeps
                (Nat.iter n (fun v => snd (_updateMinMaxValues v)) w))
      as (_ & -> & _ & -> & -> & _). exact IH. }
  set (w' := Nat.iter n _ w) in *. destruct Hkeep as (Hs' & Hm' & Hq').
  pose proof (autoBounds_LOG_NaN log10 w' m Hlog Hs' Hm' Hne Hq') as Hb.
  rewrite _updateMinMaxValues_autoBounds, Hb, js_neq_NaN, orb_true_r.
  cbn. by rewrite <- app_assoc.
Qed.

(** * The further statements at sample inputs *)

Lemma X2_witness :
  _scale measureChosen = LINEAR
  /\ _updateMinMaxValues (snd (_updateMinMaxValues measureChosen))
     = (false, snd (_updateMinMaxValues measureChosen)).
Proof.
  assert (H : _scale measureChosen = LINEAR) by (vm_compute; reflexivity).
  split; [exact H|].
  exact (X2_bounds_recomputation_settles measureChosen H).
Defined.

Lemma X3_witness :
  _tasks (history sample_log10 sampleMaps settingsStory) = ∅
  /\ _settingsToLoad (history sample_log10 sampleMaps settingsStory) = JNull.
Proof.
  assert (H : _tasks (history sample_log10 sampleMaps settingsStory) = ∅)
    by (vm_compute; reflexivity).
  split; [exact H|].
  exact (X3_idle_workspace_has_no_pending_settings sample_log10 sampleMaps
           settingsStory H).
Defined.

Lemma X4_witness :
  is_Some (_tasks (history sample_log10 sampleMaps [CallLoadImage ["picture"]])
             !! "load-image")
  /\ _mode (history sample_log10 sampleMaps [CallLoadImage ["picture"]])
     = MODE_2D.
Proof.
  assert (H : is_Some
                (_tasks (history sample_log10 sampleMaps
                           [CallLoadImage ["picture"]]) !! "load-image")).
  { exists pictureTask. vm_compute. reflexivity. }
  split; [exact H|].
  exact (proj1 (X4_loads_run_in_their_mode sample_log10 sampleMaps
                  [CallLoadImage ["picture"]]) H).
Defined.

Lemma X5_witness :
  _mode (history sample_log10 sampleMaps imageThenMeshStory) = MODE_3D
  /\ Scene2D.image (_scene2d (history sample_log10 sampleMaps imageThenMeshStory))
     = None
  /\ Scene2D.spots (_scene2d (history sample_log10 sampleMaps imageThenMeshStory))
     = None.
Proof.
  assert (H : _mode (history sample_log10 sampleMaps imageThenMeshStory)
              = MODE_3D) by (vm_compute; reflexivity).
  split; [exact H|].
  apply (proj1 (X5_scenes_hold_nothing_outside_their_mode sample_log10
                  sampleMaps imageThenMeshStory)).
  rewrite H. discriminate.
Defined.

Lemma X8_witness :
  (_scale selected = LINEAR /\ _autoMinMax selected = true
   /\ _activeMeasure selected = JObj oneToFive
   /\ _maxValue selected = Num (ofZ 3))
  /\ _hotspotQuantile (set_hotspotQuantile NaN selected) = NaN
  /\ _maxValue (set_hotspotQuantile NaN selected) = Undef.
Proof.
  assert (H1 : _scale selected = LINEAR) by (vm_compute; reflexivity).
  assert (H2 : _autoMinMax selected = true) by (vm_compute; reflexivity).
  assert (H3 : _activeMeasure selected = JObj oneToFive)
    by (vm_compute; reflexivity).
  assert (H4 : survivors LINEAR (Measure.values oneToFive) <> []).
  { intros E. vm_compute in E. discriminate. }
  assert (H5 : _maxValue selected = Num (ofZ 3)) by (vm_compute; reflexivity).
  split; [exact (conj H1 (conj H2 (conj H3 H5)))|].
  destruct (X8_NaN_quantile_blanks_the_map selected oneToFive (ofZ 3)
              H1 H2 H3 H4 H5) as (E1 & E2 & _).
  exact (conj E1 E2).
Defined.

Lemma X9_witness :
  (_autoMinMax selected = true
   /\ set_minValue (Num (ofZ 9)) selected = selected)
  /\ (_autoMinMax equalBounds = false
      /\ _minValue (set_minValue (Num (ofZ 2)) equalBounds) = Num (ofZ 2)
      /\ _maxValue (set_minValue (Num (ofZ 2)) equalBounds)
         = _maxValue equalBounds).
Proof.
  assert (H1 : _autoMinMax selected = true) by (vm_compute; reflexivity).
  assert (H2 : _autoMinMax equalBounds = false) by (vm_compute; reflexivity).
  split.
  - split; [exact H1|].
    exact (proj1 (proj1 (X9_manual_bounds sample_log10 selected) H1
                    (Num (ofZ 9)))).
  - split; [exact H2|].
    destruct (proj1 (proj2 (X9_manual_bounds sample_log10 equalBounds) H2)
                (Num (ofZ 2))) as (E1 & E2 & _).
    exact (conj E1 E2).
Defined.

Lemma X10_witness :
  (_scale selected = LINEAR /\ inUnit (_hotspotQuantile selected))
  /\ exists w1 w2,
       set_scaleId sample_log10 "log" selected = Ok w1
       /\ set_scaleId sample_log10 "linear" w1 = Ok w2
       /\ _scale w2 = LINEAR
       /\ _measures w2 = _measures selected.
Proof.
  assert (H1 : _scale selected = LINEAR) by (vm_compute; reflexivity).
  assert (H2 : inUnit (_hotspotQuantile selected)).
  { exists (Q2Qc (1 # 2)). split; [vm_compute; reflexivity|].
    split; unfold Qcle, Qle; simpl; lia. }
  split; [exact (conj H1 H2)|].
  destruct (X10_scale_round_trip sample_log10 selected H1 (fun _ => H2))
    as (w1 & w2 & E1 & E2 & E3 & E4 & _).
  exists w1, w2. exact (conj E1 (conj E2 (conj E3 E4))).
Defined.

Lemma X11_witness :
  _tasks imageLoading !! "load-image" = Some pictureTask
  /\ _tasks (_doTask LOAD_MEASURES (FirstBlob (JObj "table")) imageLoading)
       !! "load-image" = Some pictureTask.
Proof.
  assert (H : _tasks imageLoading !! "load-image" = Some pictureTask)
    by (vm_compute; reflexivity).
  assert (Hk : "load-image" <> TaskType.key LOAD_MEASURES) by discriminate.
  split; [exact H|].
  exact (proj2 (proj2 (X11_doTask_replaces_its_own_task LOAD_MEASURES
                         (FirstBlob (JObj "table")) imageLoading))
           "load-image" pictureTask Hk H).
Defined.

Lemma X12_witness :
  _tasks imageLoading !! TaskType.key LOAD_IMAGE = Some pictureTask
  /\ _errors (onFailed LOAD_IMAGE "no pixels" imageLoading)
     = (_errors imageLoading ++ ["Operation failed: no pixels"])%list
  /\ _status (onFailed LOAD_IMAGE "no pixels" imageLoading) = ""
  /\ In (Task.worker pictureTask)
       (terminated (onFailed LOAD_IMAGE "no pixels" imageLoading)).
Proof.
  assert (H : _tasks imageLoading !! TaskType.key LOAD_IMAGE = Some pictureTask)
    by (vm_compute; reflexivity).
  split; [exact H|].
  destruct (X12_failed_task_is_retired LOAD_IMAGE "no pixels" imageLoading
              pictureTask H) as (E1 & E2 & E3 & _).
  exact (conj E1 (conj E2 E3)).
Defined.

Lemma X14_witness :
  is_Some (_tasks measuresLoading !! "load-measures")
  /\ _tasks (set_mode MODE_2D measuresLoading) !! "load-measures"
     = _tasks measuresLoading !! "load-measures".
Proof.
  assert (H : _tasks measuresLoading !! "load-measures"
              = Some (Task.mk 0 "" (FirstBlob (JObj "table"))))
    by (vm_compute; reflexivity).
  assert (Hi : "load-measures" <> "load-image") by discriminate.
  assert (Hm : "load-measures" <> "load-mesh") by discriminate.
  split; [rewrite H; eexists; reflexivity|].
  rewrite H.
  exact (proj1 (X14_mode_switch_cancels_loads_only MODE_2D measuresLoading)
           "load-measures" _ Hi Hm H).
Defined.



Lemma X18_witness :
  (sample_log10 NaN = NaN /\ _scale nanQuantileLog = LOG sample_log10
   /\ _activeMeasure nanQuantileLog = JObj oneToFive
   /\ _hotspotQuantile nanQuantileLog = NaN)
  /\ fst (_updateMinMaxValues
            (Nat.iter 2 (fun v => snd (_updateMinMaxValues v)) nanQuantileLog))
     = true.
Proof.
  assert (H1 : sample_log10 NaN = NaN) by (vm_compute; reflexivity).
  assert (H2 : _scale nanQuantileLog = LOG sample_log10) by reflexivity.
  assert (H3 : _activeMeasure nanQuantileLog = JObj oneToFive)
    by (vm_compute; reflexivity).
  assert (H4 : survivors (LOG sample_log10) (Measure.values oneToFive) <> []).
  { intros E. vm_compute in E. discriminate. }
  assert (H5 : _hotspotQuantile nanQuantileLog = NaN)
    by (vm_compute; reflexivity).
  split; [exact (conj H1 (conj H2 (conj H3 H5)))|].
  exact (proj1 (X18_log_bounds_never_settle_on_a_NaN_quantile sample_log10
                  nanQuantileLog oneToFive H1 H2 H3 H4 H5 2)).
Defined.
